(** * The data-reduction pipeline of the performance dashboard

    A shallow embedding of
    - [src/lib/canvasUtils.ts]   ([calculateScales], [dataToCanvas],
      [downsampleLTTB], [downsampleSimple]),
    - [src/lib/dataGenerator.ts] ([aggregateByCategory],
      [aggregateByTimeWindow]),
    - the [useDataStream] hook   ([addDataPoint], [replaceData], [clearData]),
    and the properties the specification states about them.

    Conventions of the embedding.
    - A JavaScript [number] that holds a measurement (a timestamp, a value, a
      pixel coordinate) is an exact rational of [Q]; numeric equality of
      JavaScript is [Qeq] ([==]).  Rounding, infinities and NaN of IEEE
      doubles are outside the model.  A property whose truth a rounding can
      change (which window a timestamp falls in, an inequality at the border
      of the plot) is stated for [whole] numbers, on which the arithmetic of
      doubles is exact.
    - A [number] that holds a count or an index (a length, [threshold],
      [maxPoints], [maxDataPoints]) is an integer of [Z].
    - A [DataPoint[]] is a list of references to objects: JavaScript's
      [!==] on two array elements compares the identity of the objects, not
      their fields, so an element carries the address of its object next to
      the fields.
    - A function whose run may leave the typed world (an array read out of
      range gives [undefined], a loop never ends) returns an [option]; [None]
      stands for every run that does not return a [DataPoint[]]. *)

From Stdlib Require Import ZArith QArith Qround Qabs Qminmax Lia Lqa List Sorted.
From stdpp Require Import base option list strings gmap.

Open Scope Z_scope.

(** ** Data model ([src/lib/types.ts]) *)

(** The fields of the [DataPoint] interface.  The optional [metadata] bag is
    never read by the functions modelled here and is left out. *)
Record DataPoint : Type := mkDataPoint {
  timestamp : Q;
  value : Q;
  category : string
}.

(** An element of a [DataPoint[]]: the identity of the object and its fields. *)
Record PointRef : Type := mkRef {
  addr : positive;
  target :> DataPoint
}.

(** [a !== b] on two possibly [undefined] array elements. *)
Definition strict_neq (a b : option PointRef) : bool :=
  match a, b with
  | Some x, Some y => negb (Pos.eqb (addr x) (addr y))
  | None, None => false
  | _, _ => true
  end.

(** [data[i]] for an integer index: [undefined] (here [None]) out of range. *)
Definition read (data : list PointRef) (i : Z) : option PointRef :=
  if i <? 0 then None else data !! Z.to_nat i.

(** [data.length] *)
Definition len (data : list PointRef) : Z := Z.of_nat (length data).

(** [whole q z]: the number [q] is the whole number [z], of magnitude below
    [2^50].  Doubles hold such numbers exactly, and so their sums, differences
    and products of magnitude below [2^53]; the quotient of two of them is
    rounded, but never across a whole number. *)
Definition whole (q : Q) (z : Z) : Prop :=
  q == inject_Z z /\ Z.abs z < 2 ^ 50.

(** ** The sliding-window buffer (hook [useDataStream]) *)

Module Stream.

(** The state the hook keeps between renders. *)
Record state : Type := mkState {
  data : list PointRef;
  isStreaming : bool
}.

(** [arr.slice(start)] for an integer [start]: a negative [start] counts from
    the end, and both ends are clamped to the array. *)
Definition slice_from (arr : list PointRef) (start : Z) : list PointRef :=
  let k := if start <? 0 then Z.max (len arr + start) 0
           else Z.min start (len arr) in
  drop (Z.to_nat k) arr.

(** The argument of [addDataPoint] is [DataPoint | DataPoint[]]. *)
Definition points_of (newPoint : PointRef + list PointRef) : list PointRef :=
  match newPoint with
  | inl p => [p]
  | inr ps => ps
  end.

(** The updater that [addDataPoint] hands to [setData]. *)
Definition append_window (maxDataPoints : Z)
    (newPoint : PointRef + list PointRef) (prevData : list PointRef)
  : list PointRef :=
  let points := points_of newPoint in
  let updated := prevData ++ points in
  if maxDataPoints <? len updated
  then slice_from updated (- maxDataPoints)
  else updated.

Definition addDataPoint (maxDataPoints : Z)
    (newPoint : PointRef + list PointRef) (st : state) : state :=
  {| data := append_window maxDataPoints newPoint (data st);
     isStreaming := isStreaming st |}.

Definition replaceData (newData : list PointRef) (st : state) : state :=
  {| data := newData; isStreaming := isStreaming st |}.

Definition clearData (st : state) : state :=
  {| data := []; isStreaming := isStreaming st |}.

Definition start (st : state) : state :=
  {| data := data st; isStreaming := true |}.

Definition stop (st : state) : state :=
  {| data := data st; isStreaming := false |}.

Definition toggle (st : state) : state :=
  {| data := data st; isStreaming := negb (isStreaming st) |}.

End Stream.

(** ** Loops *)

(** [for (let j = lo; j < hi; j++) s = body(j, s)]: the counter goes up by
    one, so the number of rounds is fixed when the loop is entered. *)
Fixpoint for_range {S : Type} (rounds : nat) (j : Z)
    (body : Z → S → option S) (s : S) : option S :=
  match rounds with
  | O => Some s
  | Datatypes.S n => s' ← body j s; for_range n (j + 1) body s'
  end.

Definition for_loop {S : Type} (lo hi : Z) (body : Z → S → option S) (s : S)
  : option S :=
  for_range (Z.to_nat (hi - lo)) lo body s.

(** ** Scales and pixel mapping ([src/lib/canvasUtils.ts]) *)

Record ScaleFactors : Type := mkScales {
  xMin : Q;
  xMax : Q;
  xRange : Q;
  yMin : Q;
  yMax : Q;
  yRange : Q
}.

(** [Math.min(x, ...xs)] and [Math.max(x, ...xs)] on at least one argument. *)
Definition Math_min (x : Q) (xs : list Q) : Q := foldl Qmin x xs.
Definition Math_max (x : Q) (xs : list Q) : Q := foldl Qmax x xs.

(** [r || d] on numbers: [d] when [r] is zero. *)
Definition or_else (r d : Q) : Q := if Qeq_bool r 0 then d else r.

Definition calculateScales (data : list PointRef) : ScaleFactors :=
  match data with
  | [] =>
      {| xMin := 0; xMax := 1; xRange := 1; yMin := 0; yMax := 1; yRange := 1 |}
  | d :: rest =>
      let xMin := Math_min (timestamp d) (map (λ p : PointRef, timestamp p) rest) in
      let xMax := Math_max (timestamp d) (map (λ p : PointRef, timestamp p) rest) in
      let yMin := Math_min (value d) (map (λ p : PointRef, value p) rest) in
      let yMax := Math_max (value d) (map (λ p : PointRef, value p) rest) in
      {| xMin := xMin;
         xMax := xMax;
         xRange := or_else (xMax - xMin) 1;
         yMin := yMin;
         yMax := yMax;
         yRange := or_else (yMax - yMin) 1 |}
  end%Q.

Module Pixel.
Record t : Type := mk { x : Q; y : Q }.
End Pixel.

Definition dataToCanvas (point : DataPoint) (scales : ScaleFactors)
    (width height padding : Q) : Pixel.t :=
  (let chartWidth := width - padding * 2 in
   let chartHeight := height - padding * 2 in
   let x := padding
            + ((timestamp point - xMin scales) / xRange scales) * chartWidth in
   let y := padding + chartHeight
            - ((value point - yMin scales) / yRange scales) * chartHeight in
   {| Pixel.x := x; Pixel.y := y |})%Q.

(** ** Largest-Triangle-Three-Buckets downsampling *)

(** [area > maxArea] *)
Definition Qgtb (a b : Q) : bool := negb (Qle_bool a b).

(** The triangle spanned by the last kept point, a candidate and the mean of
    the next bucket. *)
Definition triangle_area (pointA pointB : DataPoint) (avgTimestamp avgValue : Q)
  : Q :=
  Qabs ((timestamp pointA - avgTimestamp) * (value pointB - value pointA)
        - (timestamp pointA - timestamp pointB) * (avgValue - value pointA))%Q.

(** The body of the loop that sums the next bucket. *)
Definition sum_body (data : list PointRef) (j : Z) (acc : Q * Q)
  : option (Q * Q) :=
  let '(avgTimestamp, avgValue) := acc in
  d ← read data j;
  Some (avgTimestamp + timestamp (target d), avgValue + value (target d))%Q.

(** The body of the loop that looks for the largest triangle. *)
Definition area_body (data : list PointRef) (pointA : PointRef)
    (avgTimestamp avgValue : Q) (j : Z) (acc : Q * Z) : option (Q * Z) :=
  let '(maxArea, maxAreaPoint) := acc in
  pointB ← read data j;
  let area := triangle_area (target pointA) (target pointB)
                avgTimestamp avgValue in
  if Qgtb area maxArea then Some (area, j)
  else Some (maxArea, maxAreaPoint).

(** One round of the outer loop of [downsampleLTTB]: the state is the list
    [sampled] and the index [a] of the last kept point.  The two divisions
    by [avgRangeLength] are exact; the count is positive in every round the
    loop runs on an input longer than [threshold >= 3]
    ([avgRangeLength_positive] below), so the [NaN] of a division of zero by
    zero does not arise there. *)
Definition lttb_round (data : list PointRef) (bucketSize : Q) (i : Z)
    (st : list PointRef * Z) : option (list PointRef * Z) :=
  let '(sampled, a) := st in
  let avgRangeStart := Qfloor (inject_Z (i + 1) * bucketSize) + 1 in
  let avgRangeEnd := Qfloor (inject_Z (i + 2) * bucketSize) + 1 in
  let avgRangeLength := Z.min avgRangeEnd (len data) - avgRangeStart in
  '(sumTimestamp, sumValue) ←
    for_loop avgRangeStart (Z.min avgRangeEnd (len data))
      (sum_body data) (0%Q, 0%Q);
  let avgTimestamp := (sumTimestamp / inject_Z avgRangeLength)%Q in
  let avgValue := (sumValue / inject_Z avgRangeLength)%Q in
  let rangeStart := Qfloor (inject_Z i * bucketSize) + 1 in
  let rangeEnd := Qfloor (inject_Z (i + 1) * bucketSize) + 1 in
  pointA ← read data a;
  '(maxArea, maxAreaPoint) ←
    for_loop rangeStart (Z.min rangeEnd (len data))
      (area_body data pointA avgTimestamp avgValue) ((-1)%Q, rangeStart);
  kept ← read data maxAreaPoint;
  Some (sampled ++ [kept], maxAreaPoint).

Definition downsampleLTTB (data : list PointRef) (threshold : Z)
  : option (list PointRef) :=
  if len data <=? threshold then Some data
  else
    first ← read data 0;
    let bucketSize := (inject_Z (len data - 2) / inject_Z (threshold - 2))%Q in
    '(sampled, _) ←
      for_loop 0 (threshold - 2) (lttb_round data bucketSize) ([first], 0);
    final ← read data (len data - 1);
    Some (sampled ++ [final]).

(** ** Stride downsampling *)

(** [for (let i = i0; i < data.length; i += step) sampled.push(data[i])].
    The loop does not end when [step] is not positive; [fuel] bounds the
    rounds, and [None] reports that it ran out. *)
Fixpoint stride_loop (fuel : nat) (data : list PointRef) (step i : Z)
    (sampled : list PointRef) : option (list PointRef) :=
  if i <? len data then
    match fuel with
    | O => None
    | Datatypes.S fuel' =>
        d ← read data i;
        stride_loop fuel' data step (i + step) (sampled ++ [d])
    end
  else Some sampled.

(** The statement after the loop: push the last point unless the loop ended
    on that very object. *)
Definition include_last (data sampled : list PointRef) : list PointRef :=
  if strict_neq (last sampled) (last data)
  then sampled ++ option_list (last data)
  else sampled.

Definition downsampleSimple (data : list PointRef) (maxPoints : Z)
  : option (list PointRef) :=
  if len data <=? maxPoints then Some data
  else if maxPoints =? 0 then
    (* [step] is [Infinity]: the loop body runs once *)
    d ← read data 0;
    Some (include_last data [d])
  else
    let step := Qceiling (inject_Z (len data) / inject_Z maxPoints) in
    sampled ← stride_loop (length data) data step 0 [];
    Some (include_last data sampled).

(** ** Aggregation ([src/lib/dataGenerator.ts]) *)

(** [data.reduce((acc, point) => { acc[c] = (acc[c] || 0) + v; return acc }, {})]
    with the object used as a map from category to sum. *)
Definition aggregateByCategory (data : list PointRef) : gmap string Q :=
  foldl (λ (acc : gmap string Q) (point : PointRef),
           <[category point := (default 0 (acc !! category point)
                                + value point)%Q]> acc)
        ∅ data.

(** The entry [{ sum, count }] kept for a time window. *)
Record Window : Type := mkWindow {
  sum : Q;
  count : Z
}.

(** A [Map<number, Window>]: the entries in the order in which their keys
    were first set; keys are compared as numbers. *)
Definition WindowMap : Type := list (Q * Window).

(** [windows.get(key)] *)
Fixpoint map_get (windows : WindowMap) (key : Q) : option Window :=
  match windows with
  | [] => None
  | (k, w) :: rest => if Qeq_bool k key then Some w else map_get rest key
  end.

(** [windows.set(key, w)]: an existing key keeps its place, a new key goes
    to the end. *)
Fixpoint map_set (windows : WindowMap) (key : Q) (w : Window) : WindowMap :=
  match windows with
  | [] => [(key, w)]
  | (k, w0) :: rest =>
      if Qeq_bool k key then (k, w) :: rest
      else (k, w0) :: map_set rest key w
  end.

(** [Math.floor(timestamp / windowMs) * windowMs] *)
Definition windowKey (windowMs : Q) (point : DataPoint) : Q :=
  (inject_Z (Qfloor (timestamp point / windowMs)) * windowMs)%Q.

(** The callback of [data.forEach]. *)
Definition add_to_window (windowMs : Q) (windows : WindowMap)
    (point : PointRef) : WindowMap :=
  let key := windowKey windowMs point in
  let window := default {| sum := 0; count := 0 |} (map_get windows key) in
  map_set windows key
    {| sum := (sum window + value point)%Q; count := count window + 1 |}.

(** The callback of the final [map]: a new object per entry. *)
Definition window_point (entry : Q * Window) : DataPoint :=
  let '(timestamp, w) := entry in
  {| timestamp := timestamp;
     value := (sum w / inject_Z (count w))%Q;
     category := "aggregated" |}.

Definition aggregateByTimeWindow (data : list PointRef) (windowMs : Q)
  : list DataPoint :=
  match data with
  | [] => []
  | _ => map window_point (foldl (add_to_window windowMs) [] data)
  end.

(** ** Time windows as the specification describes them *)

(** [k] occurs in [keys], keys compared as numbers. *)
Definition key_mem (k : Q) (keys : list Q) : bool :=
  existsb (Qeq_bool k) keys.

(** The distinct keys of a list, each at the place of its first occurrence. *)
Fixpoint first_occurrences (keys : list Q) : list Q :=
  match keys with
  | [] => []
  | k :: rest =>
      k :: List.filter (λ k', negb (Qeq_bool k k')) (first_occurrences rest)
  end.

(** Pairwise different keys. *)
Definition distinct (keys : list Q) : Prop :=
  StronglySorted (λ a b, ~ a == b) keys.

(** The points of [data] that fall into the window that starts at [key]. *)
Definition bucket (windowMs key : Q) (data : list PointRef) : list PointRef :=
  List.filter (λ p : PointRef, Qeq_bool (windowKey windowMs p) key) data.

Definition Qsum (xs : list Q) : Q := foldr Qplus 0%Q xs.

(** The arithmetic mean of the values of a list of points. *)
Definition mean_value (points : list PointRef) : Q :=
  (Qsum (map (λ p : PointRef, value p) points)
   / inject_Z (Z.of_nat (length points)))%Q.

(** ** Sample data *)

Definition sample_point (a : positive) (t v : Z) : PointRef :=
  {| addr := a;
     target := {| timestamp := inject_Z t; value := inject_Z v;
                  category := "A" |} |}.

Definition sample6 : list PointRef :=
  [sample_point 1 0 10; sample_point 2 50 20; sample_point 3 150 30;
   sample_point 4 180 40; sample_point 5 200 5; sample_point 6 300 7].

(** The points of the specification's time-window example. *)
Definition sample4 : list PointRef := take 4 sample6.

(** Two points whose timestamps go down. *)
Definition sample_unordered : list PointRef :=
  [sample_point 1 150 30; sample_point 2 0 10].

(** ** Data generation ([src/lib/dataGenerator.ts])

    [Math.sin] and [Math.random] are inputs of the model: [Math_sin] is the
    function the engine computes, and [random n] is what the [n]-th call of
    [Math.random()] of a run returns. *)

Definition CATEGORIES : list string := ["A"; "B"; "C"; "D"]%string.

(** [Math.max(0, Math.min(100, baseline + sineWave + noise))]; [noise_rand]
    is the result of the call of [Math.random()]. *)
Definition generateValue (Math_sin : Q → Q) (seed noise_rand : Q) : Q :=
  (let sineWave := Math_sin (seed / 100) * 50 in
   let noise := noise_rand * 20 in
   let baseline := 50 in
   Qmax 0 (Qmin 100 (baseline + sineWave + noise)))%Q.

(** [CATEGORIES[Math.floor(r * CATEGORIES.length)]], [None] for
    [undefined]. *)
Definition pick_category (r : Q) : option string :=
  let i := Qfloor (r * inject_Z (Z.of_nat (length CATEGORIES))) in
  if i <? 0 then None else CATEGORIES !! Z.to_nat i.

(** The object literal the generators build; [None] when the category is
    [undefined].  The [metadata] bag is left out as in [DataPoint]. *)
Definition new_point (Math_sin : Q → Q) (timestamp seed noise_rand
    category_rand : Q) : option DataPoint :=
  category ← pick_category category_rand;
  Some {| timestamp := timestamp;
          value := generateValue Math_sin seed noise_rand;
          category := category |}.

(** [generateNewDataPoint(lastTimestamp)]; the two calls of [Math.random()]
    return [r0] and [r1]. *)
Definition generateNewDataPoint (Math_sin : Q → Q) (r0 r1 : Q)
    (lastTimestamp : Q) : option DataPoint :=
  let timestamp := (lastTimestamp + 100)%Q in
  new_point Math_sin timestamp timestamp r0 r1.

(** The loop of [generateBatch]: round [i] makes the calls [2 i] and
    [2 i + 1] of [Math.random()]. *)
Fixpoint generateBatch_loop (Math_sin : Q → Q) (random : nat → Q)
    (rounds i : nat) (currentTimestamp : Q) : option (list DataPoint) :=
  match rounds with
  | O => Some []
  | Datatypes.S n =>
      let currentTimestamp := (currentTimestamp + 100)%Q in
      point ← new_point Math_sin currentTimestamp currentTimestamp
                (random (2 * i)%nat) (random (2 * i + 1)%nat);
      batch ← generateBatch_loop Math_sin random n (Datatypes.S i)
                currentTimestamp;
      Some (point :: batch)
  end.

Definition generateBatch (Math_sin : Q → Q) (random : nat → Q) (count : Z)
    (lastTimestamp : Q) : option (list DataPoint) :=
  generateBatch_loop Math_sin random (Z.to_nat count) 0 lastTimestamp.

(** The loop of [generateInitialDataset], from index [i] on. *)
Fixpoint generateInitialDataset_loop (Math_sin : Q → Q) (random : nat → Q)
    (now : Q) (count : Z) (rounds i : nat) : option (list DataPoint) :=
  match rounds with
  | O => Some []
  | Datatypes.S n =>
      point ← new_point Math_sin
                (now - inject_Z (count - Z.of_nat i) * 100)%Q
                (inject_Z (Z.of_nat i))
                (random (2 * i)%nat) (random (2 * i + 1)%nat);
      points ← generateInitialDataset_loop Math_sin random now count n
                 (Datatypes.S i);
      Some (point :: points)
  end.

(** [generateInitialDataset(count)]; [now] is what [Date.now()] returns. *)
Definition generateInitialDataset (Math_sin : Q → Q) (random : nat → Q)
    (now : Q) (count : Z) : option (list DataPoint) :=
  generateInitialDataset_loop Math_sin random now count (Z.to_nat count) 0.

(** ** The timer of [useDataStream] *)

Module Tick.

(** [data[data.length - 1]?.timestamp || Date.now()]: the timestamp of the
    last point, or [now] when there is none or when it is zero. *)
Definition lastTimestamp (data : list PointRef) (now : Q) : Q :=
  match last data with
  | Some p => if Qeq_bool (timestamp p) 0 then now else timestamp p
  | None => now
  end.

(** The callback of [setInterval]: make a point after the last one and
    append it.  The callback reads the last timestamp from [rendered], the
    [data] of the render whose effect set the timer, which its closure holds;
    the updater that [addDataPoint] queues is applied to [st], the state at
    the time it runs.  [fresh] is the identity of the new object. *)
Definition tick (Math_sin : Q → Q) (r0 r1 now : Q) (fresh : positive)
    (maxDataPoints : Z) (rendered : list PointRef) (st : Stream.state)
  : option Stream.state :=
  newPoint ← generateNewDataPoint Math_sin r0 r1 (lastTimestamp rendered now);
  Some (Stream.addDataPoint maxDataPoints
          (inl {| addr := fresh; target := newPoint |}) st).

End Tick.

(** ** Performance utilities (module [performanceUtils]) *)

(** [Math.round(x)]: the nearest integer, halves going up. *)
Definition Math_round (x : Q) : Z := Qfloor (x + (1 # 2))%Q.

Definition calculateFPS (frameCount : Z) (elapsedTime : Q) : Q :=
  if Qeq_bool elapsedTime 0 then 0%Q
  else inject_Z (Math_round ((inject_Z frameCount * 1000) / elapsedTime)).

Definition average (numbers : list Q) : Q :=
  match numbers with
  | [] => 0%Q
  | _ => (foldl Qplus 0 numbers / inject_Z (Z.of_nat (length numbers)))%Q
  end.

Record PerformanceMetrics : Type := mkMetrics {
  fps : Q;
  memoryUsage : Q;
  renderTime : Q;
  dataPoints : Z
}.

Inductive Grade : Type := GradeA | GradeB | GradeC | GradeD | GradeF.

Record GradeInfo : Type := mkGradeInfo {
  grade : Grade;
  color : string;
  description : string
}.

(** [a >= b] and [a < b] on numbers. *)
Definition Qgeb (a b : Q) : bool := Qle_bool b a.
Definition Qltb (a b : Q) : bool := negb (Qle_bool b a).

Definition getPerformanceGrade (metrics : PerformanceMetrics) : GradeInfo :=
  let fps := fps metrics in
  let renderTime := renderTime metrics in
  if Qgeb fps 58 && Qltb renderTime 10 then
    {| grade := GradeA; color := "#10b981";
       description := "Excellent performance" |}
  else if Qgeb fps 50 && Qltb renderTime 15 then
    {| grade := GradeB; color := "#3b82f6";
       description := "Good performance" |}
  else if Qgeb fps 40 && Qltb renderTime 20 then
    {| grade := GradeC; color := "#f59e0b";
       description := "Fair performance" |}
  else if Qgeb fps 25 then
    {| grade := GradeD; color := "#ef4444";
       description := "Poor performance" |}
  else
    {| grade := GradeF; color := "#dc2626";
       description := "Critical performance issues" |}.

(** How good a grade is: the larger the better. *)
Definition grade_rank (g : Grade) : Z :=
  match g with
  | GradeA => 4 | GradeB => 3 | GradeC => 2 | GradeD => 1 | GradeF => 0
  end.

(** [getFPSColor] of the [PerformanceMonitor] component. *)
Definition getFPSColor (fps : Q) : string :=
  if Qgeb fps 55 then "text-green-400"
  else if Qgeb fps 30 then "text-yellow-400"
  else "text-red-400".

(** ** The hook [usePerformanceMonitor] *)

Module Monitor.

(** The three refs and the [metrics] state of the hook. *)
Record state : Type := mkState {
  frameCount : Z;
  lastTime : Q;
  renderTimes : list Q;
  metrics : PerformanceMetrics
}.

(** [measureFrame(renderTime, dataPoints)]; [now] is what
    [performance.now()] returns and [memory] what [getMemoryUsage()] returns
    in this call. *)
Definition measureFrame (now memory : Q) (renderTime : Q) (dataPoints : Z)
    (st : state) : state :=
  let frameCount := frameCount st + 1 in
  let pushed := renderTimes st ++ [renderTime] in
  let renderTimes :=
    if 60 <? Z.of_nat (length pushed) then drop 1 pushed else pushed in
  let elapsed := (now - lastTime st)%Q in
  if Qgeb elapsed 1000 then
    {| frameCount := 0;
       lastTime := now;
       renderTimes := renderTimes;
       metrics := {| fps := calculateFPS frameCount elapsed;
                     memoryUsage := memory;
                     renderTime := average renderTimes;
                     dataPoints := dataPoints |} |}
  else
    {| frameCount := frameCount;
       lastTime := lastTime st;
       renderTimes := renderTimes;
       metrics := metrics st |}.

(** [reset()]; [now] is what [performance.now()] returns. *)
Definition reset (now : Q) (st : state) : state :=
  {| frameCount := 0;
     lastTime := now;
     renderTimes := [];
     metrics := {| fps := 60; memoryUsage := 0; renderTime := 0;
                   dataPoints := 0 |} |}.

End Monitor.

(** ** The filters of the dashboard ([DashboardClient.tsx]) *)

Inductive TimeRange : Type := Range1min | Range5min | Range1hour | RangeAll.

(** The table [ranges], in milliseconds; ['all'] has no entry. *)
Definition range_ms (timeRange : TimeRange) : option Q :=
  match timeRange with
  | Range1min => Some (60 * 1000)%Q
  | Range5min => Some (5 * 60 * 1000)%Q
  | Range1hour => Some (60 * 60 * 1000)%Q
  | RangeAll => None
  end.

(** The body of the [useMemo] that computes [filteredData]; [now] is what
    [Date.now()] returns. *)
Definition filteredData (data : list PointRef) (categoryFilter : string)
    (timeRange : TimeRange) (now : Q) : list PointRef :=
  let filtered := data in
  let filtered :=
    if String.eqb categoryFilter "all" then filtered
    else List.filter (λ d : PointRef, String.eqb (category d) categoryFilter)
           filtered in
  match range_ms timeRange with
  | None => filtered
  | Some range =>
      let cutoff := (now - range)%Q in
      List.filter (λ d : PointRef, Qgeb (timestamp d) cutoff) filtered
  end.

(** ** Drawing ([src/lib/canvasUtils.ts], hook [useChartRenderer])

    The drawing context is the list of the calls made on it, oldest
    first. *)

Inductive command : Type :=
| SetStrokeStyle (color : string)
| SetLineWidth (w : Q)
| BeginPath
| MoveTo (x y : Q)
| LineTo (x y : Q)
| Stroke.

(** [drawGrid(ctx, width, height, padding, divisions, color)]: the calls it
    adds to the context. *)
Definition drawGrid (width height padding : Q) (divisions : Z)
    (color : string) : list command :=
  (let chartWidth := width - padding * 2 in
   let chartHeight := height - padding * 2 in
   [SetStrokeStyle color; SetLineWidth 1]
   ++ flat_map (λ i : Z,
        let y := padding + (chartHeight / inject_Z divisions) * inject_Z i in
        [BeginPath; MoveTo padding y; LineTo (width - padding) y; Stroke])
        (seqZ 0 (divisions + 1))
   ++ flat_map (λ i : Z,
        let x := padding + (chartWidth / inject_Z divisions) * inject_Z i in
        [BeginPath; MoveTo x padding; LineTo x (height - padding); Stroke])
        (seqZ 0 (divisions + 1)))%Q.

(** The [forEach] of [renderLineChart] that traces the line: [moveTo] for
    the first sampled point, [lineTo] for the others. *)
Definition trace_line (sampledData : list PointRef) (scales : ScaleFactors)
    (width height padding : Q) : list command :=
  imap (λ (i : nat) (point : PointRef),
          let px := dataToCanvas point scales width height padding in
          if (i =? 0)%nat then MoveTo (Pixel.x px) (Pixel.y px)
          else LineTo (Pixel.x px) (Pixel.y px))
       sampledData.

(** The path of [renderLineChart]: scales from all of [data], then the
    stride downsampler, then the trace.  Nothing is drawn for empty
    [data]. *)
Definition line_chart_path (data : list PointRef) (width height padding : Q)
    (maxPoints : Z) : option (list command) :=
  match data with
  | [] => Some []
  | _ =>
      let scales := calculateScales data in
      sampledData ← downsampleSimple data maxPoints;
      Some (trace_line sampledData scales width height padding)
  end.

(** The coordinates a path command goes to. *)
Definition command_target (c : command) : option (Q * Q) :=
  match c with
  | MoveTo x y | LineTo x y => Some (x, y)
  | _ => None
  end.

(** A point of the drawing surface lies in the plot area. *)
Definition in_plot (width height padding : Q) (xy : Q * Q) : Prop :=
  (padding <= fst xy <= width - padding
   /\ padding <= snd xy <= height - padding)%Q.

(** ** Categories as keys of a JavaScript object

    [aggregateByCategory] reads [acc[category]] on an object literal, which
    also finds what every object inherits; the map of the model is right for
    the other keys. *)
Definition Object_prototype_keys : list string :=
  ["constructor"; "__proto__"; "__defineGetter__"; "__defineSetter__";
   "__lookupGetter__"; "__lookupSetter__"; "hasOwnProperty";
   "isPrototypeOf"; "propertyIsEnumerable"; "toLocaleString"; "toString";
   "valueOf"]%string.

Definition plain_category (c : string) : Prop :=
  ~ In c Object_prototype_keys.

(** The points of [data] of category [c]. *)
Definition of_category (c : string) (data : list PointRef) : list PointRef :=
  List.filter (λ p : PointRef, String.eqb (category p) c) data.

(** ** Buckets of the LTTB downsampler *)

(** [data.slice(lo, hi)] for [0 <= lo]: the elements at the indices from
    [lo] up to, not including, [hi]. *)
Definition segment (data : list PointRef) (lo hi : Z) : list PointRef :=
  take (Z.to_nat (hi - lo)) (drop (Z.to_nat lo) data).

(** The arithmetic mean of the timestamps of a list of points. *)
Definition mean_timestamp (points : list PointRef) : Q :=
  (Qsum (map (λ p : PointRef, timestamp p) points)
   / inject_Z (Z.of_nat (length points)))%Q.

(** ** The heatmap component *)

Module Heatmap.

Definition padding : Q := 40.
Definition gridSize : Q := 20.

(** [Math.floor((width - padding * 2) / gridSize)], and the same for the
    height. *)
Definition cols (width : Q) : Z := Qfloor ((width - padding * 2) / gridSize).
Definition rows (height : Q) : Z := Qfloor ((height - padding * 2) / gridSize).

(** [x % m] on numbers: what is left of [x] after the multiples of [m] in
    [x / m] rounded towards zero. *)
Definition Qtrunc (x : Q) : Z := if Qle_bool 0 x then Qfloor x else Qceiling x.
Definition Qrem (x m : Q) : Q := (x - m * inject_Z (Qtrunc (x / m)))%Q.

(** The cell of a point, when the guard of the [forEach] lets it in. *)
Definition cell (rows cols : Z) (point : DataPoint) : option (Z * Z) :=
  let col := Qfloor (Qrem (timestamp point) 1000 / 1000 * inject_Z cols) in
  let row := Qfloor (value point / 100 * inject_Z rows) in
  if (0 <=? row) && (row <? rows) && (0 <=? col) && (col <? cols)
  then Some (row, col) else None.

(** [grid[row][col]++] for the points the guard lets in. *)
Definition count_point (rows cols : Z) (grid : list (list Z))
    (point : PointRef) : list (list Z) :=
  match cell rows cols point with
  | Some (row, col) =>
      alter (alter Z.succ (Z.to_nat col)) (Z.to_nat row) grid
  | None => grid
  end.

(** The grid of zeros, then the [forEach]. *)
Definition grid_counts (rows cols : Z) (data : list PointRef)
  : list (list Z) :=
  foldl (count_point rows cols)
        (replicate (Z.to_nat rows) (replicate (Z.to_nat cols) 0)) data.

(** [Math.max(...grid.flat(), 1)] *)
Definition maxCount (grid : list (list Z)) : Z := foldr Z.max 1 (concat grid).

(** One [fillRect] with its [fillStyle]. *)
Record fill : Type := mkFill {
  red : Z;
  green : Z;
  blue : Z;
  left : Q;
  top : Q;
  size : Q
}.

(** The body of the two drawing loops for the cell at row [r], column [c]. *)
Definition fill_cell (grid : list (list Z)) (maxCount : Z) (r c : Z) : fill :=
  let count := default 0 (row ← grid !! Z.to_nat r; row !! Z.to_nat c) in
  let intensity := (inject_Z count / inject_Z maxCount)%Q in
  let red := Qfloor (intensity * 255) in
  let blue := 255 - red in
  let green := Qfloor (intensity * 100) in
  {| red := red; green := green; blue := blue;
     left := (padding + inject_Z c * gridSize)%Q;
     top := (padding + inject_Z r * gridSize)%Q;
     size := (gridSize - 1)%Q |}.

(** The squares of the cells that the effect of the component fills, row by
    row.  There is none for empty data; [None] stands for the [RangeError]
    of an array of negative length, which ends the effect before the first
    cell. *)
Definition render (data : list PointRef) (width height : Q)
  : option (list fill) :=
  match data with
  | [] => Some []
  | _ =>
      let cols := cols width in
      let rows := rows height in
      if (rows <? 0) || ((0 <? rows) && (cols <? 0)) then None
      else
        let grid := grid_counts rows cols data in
        let maxCount := maxCount grid in
        Some (flat_map (λ r : Z,
                          map (λ c : Z, fill_cell grid maxCount r c)
                              (seqZ 0 cols))
                       (seqZ 0 rows))
  end.

(** What the effect does to the canvas: [clearCanvas] fills all of it with
    the background colour, then the cells are filled. *)
Inductive call : Type :=
| Background (width height : Q) (color : string)
| Cell (f : fill).

(** How the effect ends: it returns at once (no data), it gets to
    [onRenderComplete], or it throws. *)
Inductive ending : Type := Skipped | Completed | Thrown.

(** [clearCanvas(ctx, width, height)] with its default colour. *)
Definition clearCanvas (width height : Q) : list call :=
  [Background width height "#1a1a2e"].

(** The effect of the component, from [clearCanvas] on: the background is
    filled before the grid is allocated. *)
Definition effect (data : list PointRef) (width height : Q)
  : list call * ending :=
  match data with
  | [] => ([], Skipped)
  | _ =>
      let cleared := clearCanvas width height in
      match render data width height with
      | Some fills => (cleared ++ map Cell fills, Completed)
      | None => (cleared, Thrown)
      end
  end.

End Heatmap.

(** ** More sample data *)

(** A sine that is always 0 and a random source that always gives one
    half. *)
Definition sample_sin : Q → Q := λ _, 0%Q.
Definition sample_random : nat → Q := λ _, (1 # 2)%Q.

Definition sample_stream : Stream.state := Stream.mkState sample4 true.

Definition sample_fast : PerformanceMetrics :=
  {| fps := 60; memoryUsage := 10; renderTime := 5; dataPoints := 100 |}.

Definition sample_slow : PerformanceMetrics :=
  {| fps := 30; memoryUsage := 10; renderTime := 18; dataPoints := 100 |}.

Definition sample_monitor : Monitor.state :=
  Monitor.mkState 59 0 [4; 6]%Q sample_fast.

(** * Properties *)

(** ** The sliding window *)

Section SlidingWindow.

Implicit Types (st : Stream.state) (arr : list PointRef).

Lemma slice_from_last arr (n : Z) :
  1 <= n -> n <= len arr ->
  Stream.slice_from arr (- n) = drop (length arr - Z.to_nat n) arr.
Proof.
  intros Hpos Hle. unfold Stream.slice_from, len in *.
  destruct (Z.ltb_spec (- n) 0) as [_|Hge]; [|lia].
  f_equal. lia.
Qed.

(** C2.  Appending a single point [p] (the buffer gets [p] after its old
    contents) or a sequence of points (the buffer gets them, in their order,
    after its old contents) to a buffer of capacity [maxDataPoints >= 1] gives
    that concatenation when it fits the capacity, and otherwise exactly its
    last [maxDataPoints] elements, in their order; what was evicted is the
    front of the concatenation.  For a single point appended to a full buffer
    the oldest element goes and the point is the newest one. *)
Theorem addDataPoint_sliding_window st (maxDataPoints : Z)
    (newPoint : PointRef + list PointRef) :
  1 <= maxDataPoints ->
  let updated :=
    match newPoint with
    | inl point => Stream.data st ++ [point]
    | inr points => Stream.data st ++ points
    end in
  let result := Stream.data (Stream.addDataPoint maxDataPoints newPoint st) in
  (len updated <= maxDataPoints -> result = updated) /\
  (maxDataPoints < len updated ->
     result = drop (length updated - Z.to_nat maxDataPoints) updated /\
     len result = maxDataPoints /\
     exists evicted, updated = evicted ++ result) /\
  (forall point : PointRef,
     newPoint = inl point -> len (Stream.data st) = maxDataPoints ->
     result = drop 1 (Stream.data st) ++ [point]).
Proof.
  intros Hcap updated result.
  assert (Hupd : updated = Stream.data st ++ Stream.points_of newPoint)
    by (subst updated; destruct newPoint; reflexivity).
  assert (Hres : result
                 = if maxDataPoints <? len updated
                   then Stream.slice_from updated (- maxDataPoints)
                   else updated).
  { subst result. cbn [Stream.addDataPoint Stream.data].
    unfold Stream.append_window. rewrite <- Hupd. reflexivity. }
  clearbody updated result. subst result.
  destruct (Z.ltb_spec maxDataPoints (len updated)) as [Hlt|Hge].
  - split; [lia|].
    rewrite slice_from_last by lia.
    split.
    + intros _. split; [reflexivity|]. split.
      * unfold len in *. rewrite length_drop. lia.
      * exists (take (length updated - Z.to_nat maxDataPoints) updated).
        symmetry. apply take_drop.
    + intros point -> Hfull. cbn [Stream.points_of] in Hupd. subst updated.
      unfold len in *. rewrite length_app in *. cbn [length] in *.
      replace (length (Stream.data st) + 1 - Z.to_nat maxDataPoints)%nat
        with 1%nat by lia.
      destruct (Stream.data st) as [|d rest]; [cbn in Hfull; lia|].
      reflexivity.
  - split; [reflexivity|]. split; [lia|].
    intros point -> Hfull. cbn [Stream.points_of] in Hupd. subst updated.
    unfold len in *. rewrite length_app in Hge. cbn [length] in Hge. lia.
Qed.

(** C9.  [replaceData] makes the buffer hold exactly the given sequence,
    whatever its length and whatever the capacity used by the appends that
    came before or come after. *)
Theorem replaceData_adopts st (newData : list PointRef) :
  Stream.data (Stream.replaceData newData st) = newData /\
  forall maxDataPoints : Z,
    maxDataPoints < len newData ->
    maxDataPoints < len (Stream.data (Stream.replaceData newData st)).
Proof. split; [reflexivity|]. intros maxDataPoints Hlong. exact Hlong. Qed.

End SlidingWindow.

(** ** Scales and pixel mapping *)

Section Scales.

Implicit Types (data : list PointRef) (point : DataPoint) (r : Q).

Lemma or_else_nonzero r : ~ or_else r 1 == 0.
Proof.
  unfold or_else. destruct (Qeq_bool r 0) eqn:Hr.
  - discriminate.
  - apply Qeq_bool_neq. exact Hr.
Qed.

Lemma or_else_zero r : r == 0 -> or_else r 1 = 1%Q.
Proof.
  intros Hr. unfold or_else.
  apply Qeq_bool_iff in Hr. rewrite Hr. reflexivity.
Qed.

Lemma or_else_keep r : ~ r == 0 -> or_else r 1 = r.
Proof.
  intros Hr. unfold or_else. destruct (Qeq_bool r 0) eqn:E; [|reflexivity].
  apply Qeq_bool_iff in E. contradiction.
Qed.

(** The ranges are the differences of the bounds, passed through [|| 1]. *)
Lemma calculateScales_ranges data :
  let s := calculateScales data in
  xRange s = or_else (xMax s - xMin s) 1 /\
  yRange s = or_else (yMax s - yMin s) 1.
Proof. destruct data; split; reflexivity. Qed.

(** C6.  The ranges of a computed scale are never zero: a zero difference of
    the bounds is replaced by [1], as for a sequence of one point; so
    [dataToCanvas] never divides by zero. *)
Theorem calculateScales_ranges_nonzero data :
  let s := calculateScales data in
  (~ xRange s == 0 /\ ~ yRange s == 0) /\
  (xMax s - xMin s == 0 -> xRange s = 1%Q) /\
  (yMax s - yMin s == 0 -> yRange s = 1%Q) /\
  (forall p : PointRef, data = [p] -> xRange s = 1%Q /\ yRange s = 1%Q).
Proof.
  intros s. destruct (calculateScales_ranges data) as [Hx Hy]. fold s in Hx, Hy.
  repeat split.
  - rewrite Hx. apply or_else_nonzero.
  - rewrite Hy. apply or_else_nonzero.
  - intros H0. rewrite Hx. apply or_else_zero, H0.
  - intros H0. rewrite Hy. apply or_else_zero, H0.
  - subst s data. cbn. apply or_else_zero. ring.
  - subst s data. cbn. apply or_else_zero. ring.
Qed.

(** C7, as the code has it.  With padding [0], the point at [(xMin, yMin)]
    goes to [(0, height)].  The point at [(xMax, yMax)] goes to [x = width]
    when [xMax] differs from [xMin] and stays at [x = 0] when they are equal
    (the range was replaced by [1]); likewise it goes to [y = 0] when [yMax]
    differs from [yMin] and stays at [y = height] when they are equal. *)
Theorem dataToCanvas_corners data point (width height : Q) :
  data <> [] ->
  let s := calculateScales data in
  let px := dataToCanvas point s width height 0 in
  (timestamp point == xMin s -> Pixel.x px == 0) /\
  (value point == yMin s -> Pixel.y px == height) /\
  (timestamp point == xMax s ->
     (~ xMax s == xMin s -> Pixel.x px == width) /\
     (xMax s == xMin s -> Pixel.x px == 0)) /\
  (value point == yMax s ->
     (~ yMax s == yMin s -> Pixel.y px == 0) /\
     (yMax s == yMin s -> Pixel.y px == height)).
Proof.
  intros _ s px.
  destruct (calculateScales_ranges data) as [Hx Hy]. fold s in Hx, Hy.
  assert (Hxn : ~ xRange s == 0) by (rewrite Hx; apply or_else_nonzero).
  assert (Hyn : ~ yRange s == 0) by (rewrite Hy; apply or_else_nonzero).
  subst px. unfold dataToCanvas. cbn [Pixel.x Pixel.y].
  split; [|split; [|split; intros Hmax; split]].
  - intros ->. field. exact Hxn.
  - intros ->. field. exact Hyn.
  - intros Hne. rewrite Hmax. revert Hxn. rewrite Hx.
    rewrite or_else_keep by (intros E; apply Hne; lra).
    intros Hxn. field. exact Hxn.
  - intros Heq. rewrite Hmax, Heq. field. exact Hxn.
  - intros Hne. rewrite Hmax. revert Hyn. rewrite Hy.
    rewrite or_else_keep by (intros E; apply Hne; lra).
    intros Hyn. field. exact Hyn.
  - intros Heq. rewrite Hmax, Heq. field. exact Hyn.
Qed.

(** C7 as stated fails on a sequence of one point: its only point is at
    [(xMax, yMax)] and is drawn at [(0, height)]. *)
Lemma dataToCanvas_max_corner_refuted :
  ~ (forall data point (width height : Q),
       data <> [] ->
       let s := calculateScales data in
       let px := dataToCanvas point s width height 0 in
       timestamp point == xMax s -> value point == yMax s ->
       Pixel.x px == width /\ Pixel.y px == 0).
Proof.
  intros Hclaim.
  pose (p := mkRef 1 (mkDataPoint 5 5 "A")).
  destruct (Hclaim [p] (target p) 100%Q 100%Q) as [Hx _];
    [discriminate | reflexivity | reflexivity |].
  vm_compute in Hx. discriminate Hx.
Qed.

End Scales.

(** ** Array reads and counting loops *)

Section Reads.

Implicit Types (data : list PointRef) (i : Z).

Lemma read_in_range data i :
  0 <= i < len data -> exists d, read data i = Some d.
Proof.
  intros [Hlo Hhi]. unfold read, len in *.
  destruct (Z.ltb_spec i 0) as [?|_]; [lia|].
  apply lookup_lt_is_Some_2. lia.
Qed.

Lemma read_first data : read data 0 = head data.
Proof. unfold read. cbn. apply eq_sym, head_lookup. Qed.

Lemma read_final data : data <> [] -> read data (len data - 1) = last data.
Proof.
  intros Hne. unfold read, len.
  destruct data as [|d data]; [contradiction|].
  destruct (Z.ltb_spec (Z.of_nat (length (d :: data)) - 1) 0) as [Hneg|_].
  - cbn [length] in Hneg. lia.
  - rewrite last_lookup. f_equal. cbn [length]. lia.
Qed.

(** A counting loop whose body keeps an invariant returns, and the invariant
    holds of what it returns. *)
Lemma for_range_inv {S : Type} (P : Z -> S -> Prop) (body : Z -> S -> option S)
    (rounds : nat) (j : Z) (s : S) :
  P j s ->
  (forall k t, j <= k < j + Z.of_nat rounds -> P k t ->
     exists t', body k t = Some t' /\ P (k + 1) t') ->
  exists s', for_range rounds j body s = Some s' /\ P (j + Z.of_nat rounds) s'.
Proof.
  revert j s. induction rounds as [|n IH]; intros j s Hinit Hstep.
  - exists s. split; [reflexivity|]. replace (j + Z.of_nat 0) with j by lia.
    exact Hinit.
  - destruct (Hstep j s) as (t & Hbody & Ht); [lia | exact Hinit |].
    destruct (IH (j + 1) t Ht) as (s' & Hrun & Hs').
    + intros k u Hk Hu. apply Hstep; [lia | exact Hu].
    + exists s'. cbn [for_range]. rewrite Hbody. cbn. split; [exact Hrun|].
      replace (j + Z.of_nat (Datatypes.S n)) with (j + 1 + Z.of_nat n) by lia.
      exact Hs'.
Qed.

Lemma for_loop_inv {S : Type} (P : Z -> S -> Prop) (body : Z -> S -> option S)
    (lo hi : Z) (s : S) :
  P lo s ->
  (forall k t, lo <= k < hi -> P k t ->
     exists t', body k t = Some t' /\ P (k + 1) t') ->
  exists s', for_loop lo hi body s = Some s' /\ P (Z.max lo hi) s'.
Proof.
  intros Hinit Hstep. unfold for_loop.
  replace (Z.max lo hi) with (lo + Z.of_nat (Z.to_nat (hi - lo))) by lia.
  apply for_range_inv; [exact Hinit|].
  intros k t Hk. apply Hstep. lia.
Qed.

End Reads.

(** ** Largest-Triangle-Three-Buckets *)

Section LTTB.

Variables (data : list PointRef) (threshold : Z).
Hypothesis threshold_min : 3 <= threshold.
Hypothesis data_longer : threshold < len data.

Let bucketSize : Q := (inject_Z (len data - 2) / inject_Z (threshold - 2))%Q.

(** Bucket boundaries stay inside the interior of the array. *)
Lemma bucket_floor_bounds (i : Z) :
  0 <= i <= threshold - 2 ->
  0 <= Qfloor (inject_Z i * bucketSize) <= len data - 2.
Proof using threshold_min data_longer.
  intros [Hlo Hhi].
  assert (Hden : (0 < inject_Z (threshold - 2))%Q).
  { change 0%Q with (inject_Z 0). rewrite <- Zlt_Qlt. lia. }
  assert (Hbs : (0 <= bucketSize)%Q).
  { unfold bucketSize. apply Qle_shift_div_l; [exact Hden|].
    rewrite Qmult_0_l. change 0%Q with (inject_Z 0). rewrite <- Zle_Qle. lia. }
  assert (Hi : (0 <= inject_Z i)%Q).
  { change 0%Q with (inject_Z 0). rewrite <- Zle_Qle. lia. }
  split.
  - rewrite <- (Qfloor_Z 0). apply Qfloor_resp_le.
    change (inject_Z 0) with 0%Q. apply Qmult_le_0_compat; assumption.
  - rewrite <- (Qfloor_Z (len data - 2)). apply Qfloor_resp_le.
    apply Qle_trans with (inject_Z (threshold - 2) * bucketSize)%Q.
    + apply Qmult_le_compat_r; [|exact Hbs]. rewrite <- Zle_Qle. lia.
    + unfold bucketSize. apply Qle_lteq. right. field.
      intros E. rewrite E in Hden. exact (Qlt_irrefl _ Hden).
Qed.

(** The next bucket is never empty, so the means of a round divide by a
    positive count. *)
Lemma avgRangeLength_positive (i : Z) :
  0 <= i < threshold - 2 ->
  let avgRangeStart := Qfloor (inject_Z (i + 1) * bucketSize) + 1 in
  let avgRangeEnd := Qfloor (inject_Z (i + 2) * bucketSize) + 1 in
  1 <= Z.min avgRangeEnd (len data) - avgRangeStart.
Proof using threshold_min data_longer.
  intros Hi avgRangeStart avgRangeEnd.
  pose proof (bucket_floor_bounds (i + 1) ltac:(lia)) as Hstart.
  assert (Hden : (0 < inject_Z (threshold - 2))%Q).
  { change 0%Q with (inject_Z 0). rewrite <- Zlt_Qlt. lia. }
  assert (Hbs : (1 <= bucketSize)%Q).
  { unfold bucketSize. apply Qle_shift_div_l; [exact Hden|].
    rewrite Qmult_1_l, <- Zle_Qle. lia. }
  assert (Hnext : Qfloor (inject_Z (i + 1) * bucketSize) + 1
                  <= Qfloor (inject_Z (i + 2) * bucketSize)).
  { rewrite <- (Qfloor_Z (Qfloor (inject_Z (i + 1) * bucketSize) + 1)).
    apply Qfloor_resp_le. rewrite inject_Z_plus.
    pose proof (Qfloor_le (inject_Z (i + 1) * bucketSize)) as Hfloor.
    replace (i + 2) with ((i + 1) + 1) by lia.
    rewrite (inject_Z_plus (i + 1) 1). change (inject_Z 1) with 1%Q.
    set (x := (inject_Z (i + 1) * bucketSize)%Q) in *.
    set (f := inject_Z (Qfloor x)) in *.
    rewrite Qmult_plus_distr_l, Qmult_1_l. fold x. lra. }
  subst avgRangeStart avgRangeEnd. lia.
Qed.

(** One round of the outer loop returns, keeps one more point, and leaves
    [a] on an element of the array. *)
Lemma lttb_round_returns (i : Z) (sampled : list PointRef) (a : Z) :
  0 <= i < threshold - 2 -> 0 <= a < len data ->
  exists kept a',
    lttb_round data bucketSize i (sampled, a) = Some (sampled ++ [kept], a') /\
    0 <= a' < len data.
Proof using threshold_min data_longer.
  intros Hi Ha. unfold lttb_round.
  pose proof (bucket_floor_bounds i ltac:(lia)) as Hb0.
  pose proof (bucket_floor_bounds (i + 1) ltac:(lia)) as Hb1.
  set (avgRangeStart := Qfloor (inject_Z (i + 1) * bucketSize) + 1) in *.
  set (avgRangeEnd := Qfloor (inject_Z (i + 2) * bucketSize) + 1).
  set (rangeStart := Qfloor (inject_Z i * bucketSize) + 1).
  destruct (for_loop_inv (fun _ _ => True) (sum_body data)
              avgRangeStart (Z.min avgRangeEnd (len data)) (0%Q, 0%Q) I)
    as ([sumTimestamp sumValue] & Hsum & _).
  { intros k [t v] Hk _. unfold sum_body.
    destruct (read_in_range data k) as [d Hd]; [lia|].
    rewrite Hd. cbn. eauto. }
  rewrite Hsum. cbn [mbind option_bind].
  destruct (read_in_range data a Ha) as [pointA HA]. rewrite HA.
  cbn [mbind option_bind].
  set (avgTimestamp := (sumTimestamp / _)%Q).
  set (avgValue := (sumValue / _)%Q).
  destruct (for_loop_inv
              (fun _ (acc : Q * Z) => rangeStart <= snd acc < len data)
              (area_body data pointA avgTimestamp avgValue)
              rangeStart (Z.min avgRangeStart (len data))
              ((-1)%Q, rangeStart))
    as ([maxArea maxAreaPoint] & Harea & Hpoint).
  { cbn [snd]. subst rangeStart. lia. }
  { intros k [m mp] Hk Hacc. cbn [snd] in Hacc. unfold area_body.
    destruct (read_in_range data k) as [pointB HB]; [subst rangeStart; lia|].
    rewrite HB. cbn [mbind option_bind].
    destruct (Qgtb _ m); eexists; (split; [reflexivity|]); cbn [snd]; lia. }
  rewrite Harea. cbn [mbind option_bind]. cbn [snd] in Hpoint.
  destruct (read_in_range data maxAreaPoint) as [kept Hkept];
    [subst rangeStart; lia|].
  rewrite Hkept. cbn [mbind option_bind].
  exists kept, maxAreaPoint. split; [reflexivity|]. subst rangeStart. lia.
Qed.

(** C1.  On an input longer than [threshold >= 3], [downsampleLTTB] returns
    exactly [threshold] points, the first and the last of which are the
    first and the last point of the input. *)
Theorem downsampleLTTB_shape :
  exists sampled,
    downsampleLTTB data threshold = Some sampled /\
    len sampled = threshold /\
    head sampled = head data /\
    last sampled = last data.
Proof using threshold_min data_longer.
  unfold downsampleLTTB.
  destruct (Z.leb_spec (len data) threshold) as [?|_]; [lia|].
  destruct (read_in_range data 0) as [first Hfirst]; [lia|].
  rewrite Hfirst. cbn [mbind option_bind]. fold bucketSize.
  destruct (for_loop_inv
              (fun i (st : list PointRef * Z) =>
                 0 <= snd st < len data /\
                 len (fst st) = 1 + i /\
                 head (fst st) = Some first)
              (lttb_round data bucketSize) 0 (threshold - 2) ([first], 0))
    as ([sampled a] & Hloop & _ & Hlen & Hhead).
  { cbn. repeat split; lia. }
  { intros i [sampled a] Hi (Ha & Hlen & Hhead). cbn [fst snd] in *.
    destruct (lttb_round_returns i sampled a Hi Ha) as (kept & a' & Hround & Ha').
    exists (sampled ++ [kept], a'). split; [exact Hround|]. cbn [fst snd].
    split; [exact Ha'|]. split.
    - unfold len in *. rewrite length_app. cbn [length]. lia.
    - destruct sampled; [discriminate Hhead | exact Hhead]. }
  rewrite Hloop. cbn [mbind option_bind fst] in *.
  assert (Hne : data <> []).
  { intros ->. unfold len in data_longer. cbn in data_longer. lia. }
  rewrite read_final by exact Hne.
  destruct (last data) as [final|] eqn:Hfinal.
  - cbn [mbind option_bind]. exists (sampled ++ [final]).
    split; [reflexivity|]. split; [|split].
    + unfold len in *. rewrite length_app. cbn [length]. lia.
    + rewrite <- (read_first data), Hfirst.
      destruct sampled; [discriminate Hhead | exact Hhead].
    + apply last_snoc.
  - apply last_None in Hfinal. contradiction.
Qed.

End LTTB.

(** ** Stride downsampling and the identity on short inputs *)

Section Downsamplers.

Implicit Types (data : list PointRef) (limit : Z).

(** C5.  Both downsamplers return an input that is not longer than the
    limit unchanged. *)
Theorem downsample_identity data limit :
  len data <= limit ->
  downsampleSimple data limit = Some data /\
  downsampleLTTB data limit = Some data.
Proof.
  intros Hshort. unfold downsampleSimple, downsampleLTTB.
  destruct (Z.leb_spec (len data) limit) as [_|Hlong]; [|lia].
  split; reflexivity.
Qed.

(** Six points and [maxPoints = 3]: the stride is [2], the loop keeps the
    points at indices [0], [2] and [4], and the guard that always includes
    the last point pushes it as a fourth. *)
Lemma downsampleSimple_exceeds_maxPoints :
  3 < len sample6 /\
  exists sampled,
    downsampleSimple sample6 3 = Some sampled /\
    map addr sampled = [1; 3; 5; 6]%positive /\
    len sampled = 4.
Proof.
  split; [reflexivity|]. eexists. split; [vm_compute; reflexivity|].
  split; reflexivity.
Qed.

(** C4 as stated fails: [maxPoints] does not bound the length of the result,
    because the last point is always kept. *)
Lemma downsampleSimple_maxPoints_refuted :
  ~ (forall data (maxPoints : Z),
       1 <= maxPoints -> maxPoints < len data ->
       exists sampled,
         downsampleSimple data maxPoints = Some sampled /\
         len sampled <= maxPoints).
Proof.
  intros Hclaim.
  destruct (Hclaim sample6 3) as (sampled & Hrun & Hlen); [lia | reflexivity |].
  vm_compute in Hrun. injection Hrun as <-.
  vm_compute in Hlen. apply Hlen. reflexivity.
Qed.

(** The stride loop ends when the stride is positive, and keeps one point
    per stride. *)
Lemma stride_loop_returns (fuel : nat) data (step i : Z)
    (sampled : list PointRef) :
  1 <= step -> 0 <= i -> len data - i <= Z.of_nat fuel ->
  exists picks,
    stride_loop fuel data step i sampled = Some (sampled ++ picks) /\
    (i < len data -> (len picks - 1) * step < len data - i) /\
    (len data <= i -> picks = []).
Proof.
  intros Hstep. revert i sampled.
  induction fuel as [|fuel IH]; intros i sampled Hi Hfuel.
  - exists []. cbn [stride_loop].
    destruct (Z.ltb_spec i (len data)) as [?|_]; [lia|].
    rewrite app_nil_r. split; [reflexivity|]. split; [lia|reflexivity].
  - cbn [stride_loop].
    destruct (Z.ltb_spec i (len data)) as [Hlt|Hge].
    + destruct (read_in_range data i) as [d Hd]; [lia|].
      rewrite Hd. cbn [mbind option_bind].
      destruct (IH (i + step) (sampled ++ [d])) as (picks & Hrun & Hcount & Hnone);
        [lia | lia |].
      exists (d :: picks). rewrite Hrun, <- app_assoc. cbn [app].
      split; [reflexivity|]. split; [|lia].
      intros _. unfold len in *. cbn [length].
      destruct (Z_lt_le_dec (i + step) (Z.of_nat (length data))) as [Hin|Hout].
      * specialize (Hcount Hin). nia.
      * rewrite (Hnone Hout). cbn [length]. lia.
    + exists []. rewrite app_nil_r. split; [reflexivity|]. split; [lia|reflexivity].
Qed.

Lemma include_last_length data (sampled : list PointRef) :
  len (include_last data sampled) <= len sampled + 1.
Proof.
  unfold include_last, len.
  destruct (strict_neq (last sampled) (last data)); [|lia].
  rewrite length_app. destruct (last data); simpl; lia.
Qed.

(** What the code does guarantee: on a longer input the stride downsampler
    returns, with at most one point more than [maxPoints]. *)
Lemma downsampleSimple_bound data (maxPoints : Z) :
  1 <= maxPoints -> maxPoints < len data ->
  exists sampled,
    downsampleSimple data maxPoints = Some sampled /\
    len sampled <= maxPoints + 1.
Proof.
  intros Hmin Hlong. unfold downsampleSimple.
  destruct (Z.leb_spec (len data) maxPoints) as [?|_]; [lia|].
  destruct (Z.eqb_spec maxPoints 0) as [?|_]; [lia|].
  set (step := Qceiling (inject_Z (len data) / inject_Z maxPoints)).
  assert (Hcover : len data <= step * maxPoints).
  { rewrite Zle_Qle, inject_Z_mult.
    assert (Hden : (0 < inject_Z maxPoints)%Q).
    { change 0%Q with (inject_Z 0). rewrite <- Zlt_Qlt. lia. }
    apply Qle_trans
      with ((inject_Z (len data) / inject_Z maxPoints) * inject_Z maxPoints)%Q.
    - apply Qle_lteq. right. field.
      intros E. rewrite E in Hden. exact (Qlt_irrefl _ Hden).
    - apply Qmult_le_compat_r; [apply Qle_ceiling | apply Qlt_le_weak, Hden]. }
  assert (Hstep : 1 <= step) by nia.
  destruct (stride_loop_returns (length data) data step 0 [] Hstep)
    as (picks & Hrun & Hcount & _); [lia | unfold len; lia |].
  rewrite Hrun. cbn [mbind option_bind app].
  eexists. split; [reflexivity|].
  pose proof (include_last_length data picks) as Hlast.
  specialize (Hcount ltac:(lia)). nia.
Qed.

End Downsamplers.

(** ** Time-window aggregation *)

(** Case analysis on every comparison of keys in the goal. *)
Ltac case_keys :=
  repeat match goal with
  | |- context [Qeq_bool ?a ?b] =>
      let E := fresh "E" in
      destruct (Qeq_bool a b) eqn:E;
      [apply Qeq_bool_iff in E | apply Qeq_bool_neq in E]
  end;
  cbn [negb andb orb];
  try reflexivity; try (exfalso; lra).

Section WindowMaps.

Implicit Types (windows : WindowMap) (key k : Q) (w : Window) (keys : list Q).

Lemma map_get_set windows key w k :
  map_get (map_set windows key w) k
  = if Qeq_bool key k then Some w else map_get windows k.
Proof.
  induction windows as [|[k0 w0] rest IH]; cbn [map_set map_get].
  - case_keys.
  - destruct (Qeq_bool k0 key) eqn:E0; cbn [map_get]; [|rewrite IH];
      [apply Qeq_bool_iff in E0 | apply Qeq_bool_neq in E0]; case_keys.
Qed.

Lemma map_get_proper windows k k' :
  k == k' -> map_get windows k = map_get windows k'.
Proof.
  intros Hk. induction windows as [|[k0 w0] rest IH]; cbn [map_get].
  - reflexivity.
  - rewrite IH. case_keys.
Qed.

Lemma key_mem_proper keys k k' : k == k' -> key_mem k keys = key_mem k' keys.
Proof.
  intros Hk. unfold key_mem. induction keys as [|k0 rest IH]; cbn [existsb].
  - reflexivity.
  - rewrite IH. case_keys.
Qed.

Lemma key_mem_app keys keys' k :
  key_mem k (keys ++ keys') = key_mem k keys || key_mem k keys'.
Proof. unfold key_mem. apply existsb_app. Qed.

(** [set] keeps the keys of the map when [key] is among them and appends
    [key] otherwise. *)
Lemma map_set_keys windows key w :
  map fst (map_set windows key w)
  = if key_mem key (map fst windows) then map fst windows
    else map fst windows ++ [key].
Proof.
  unfold key_mem.
  induction windows as [|[k0 w0] rest IH]; cbn [map_set map fst existsb app].
  - reflexivity.
  - destruct (Qeq_bool k0 key) eqn:E0;
      [apply Qeq_bool_iff in E0 | apply Qeq_bool_neq in E0].
    + cbn [map fst]. case_keys.
    + cbn [map fst]. rewrite IH. case_keys.
      cbn [orb]. destruct (existsb _ _); reflexivity.
Qed.

Lemma map_get_entry windows k w :
  distinct (map fst windows) -> In (k, w) windows ->
  map_get windows k = Some w.
Proof.
  unfold distinct.
  induction windows as [|[k0 w0] rest IH]; cbn [map fst map_get];
    intros Hd Hin; [destruct Hin|].
  apply StronglySorted_inv in Hd as [Hrest Hk0].
  destruct Hin as [Heq|Hin].
  - injection Heq as -> ->. case_keys.
  - destruct (Qeq_bool k0 k) eqn:E0.
    + apply Qeq_bool_iff in E0. exfalso.
      rewrite Forall_forall in Hk0. apply (Hk0 k); [|exact E0].
      apply list_elem_of_In. apply (in_map fst) in Hin. exact Hin.
    + apply IH; assumption.
Qed.

End WindowMaps.

Section TimeWindows.

Variable windowMs : Q.

Implicit Types (windows : WindowMap) (data : list PointRef) (k : Q).

Local Abbreviation key_of := (fun p : PointRef => windowKey windowMs p).
Local Abbreviation values := (map (fun p : PointRef => value p)).
Local Abbreviation empty_window := {| sum := 0; count := 0 |}.

Lemma filter_twice {A : Type} (f g h : A -> bool) (l : list A) :
  (forall x, f x = g x && h x) ->
  List.filter f l = List.filter h (List.filter g l).
Proof.
  intros Hf. induction l as [|x l IH]; cbn [List.filter]; [reflexivity|].
  rewrite Hf. destruct (g x); cbn [List.filter andb].
  - destruct (h x); rewrite IH; reflexivity.
  - exact IH.
Qed.

(** The keys of the map after the [forEach]: the keys it had, then the new
    keys of [data], each at its first occurrence. *)
Lemma forEach_keys windows data :
  map fst (foldl (add_to_window windowMs) windows data)
  = map fst windows
    ++ List.filter (fun k => negb (key_mem k (map fst windows)))
         (first_occurrences (map key_of data)).
Proof.
  revert windows. induction data as [|p rest IH]; intros windows.
  - cbn. rewrite app_nil_r. reflexivity.
  - cbn [foldl map first_occurrences List.filter]. rewrite IH.
    unfold add_to_window. rewrite map_set_keys.
    set (kp := windowKey windowMs p).
    destruct (key_mem kp (map fst windows)) eqn:Hmem; cbn [negb].
    + f_equal. apply filter_twice. intros x.
      destruct (Qeq_bool kp x) eqn:E; cbn [negb andb]; [|reflexivity].
      apply Qeq_bool_iff in E.
      rewrite <- (key_mem_proper _ kp x E), Hmem. reflexivity.
    + rewrite <- app_assoc. cbn [app]. do 2 f_equal.
      apply filter_twice. intros x.
      rewrite key_mem_app, negb_orb, andb_comm. f_equal.
      unfold key_mem. cbn [existsb]. rewrite orb_false_r. case_keys.
Qed.

(** The entry of a key after the [forEach]: the entry it had, with the
    values of the points of its bucket added. *)
Lemma forEach_entry windows data k :
  let result := map_get (foldl (add_to_window windowMs) windows data) k in
  let points := bucket windowMs k data in
  let before := default empty_window (map_get windows k) in
  (points = [] -> result = map_get windows k) /\
  (points <> [] ->
     exists w, result = Some w /\
       sum w == sum before + Qsum (values points) /\
       count w = count before + Z.of_nat (length points)).
Proof.
  revert windows. induction data as [|p rest IH]; intros windows.
  - cbn. split; [reflexivity | contradiction].
  - cbn [foldl]. specialize (IH (add_to_window windowMs windows p)).
    cbn zeta in IH |- *. destruct IH as [IHnone IHsome].
    unfold add_to_window in IHnone, IHsome. rewrite map_get_set in *.
    unfold bucket in *. cbn [List.filter].
    fold (add_to_window windowMs windows p) in *.
    destruct (Qeq_bool (windowKey windowMs p) k) eqn:E.
    + apply Qeq_bool_iff in E.
      rewrite (map_get_proper windows _ k E) in *.
      split; [discriminate|]. intros _.
      destruct (List.filter _ rest) as [|q points] eqn:Hpoints.
      * eexists. split; [apply IHnone; reflexivity|].
        cbn. split; [ring|lia].
      * destruct IHsome as (w & Hw & Hsum & Hcount); [discriminate|].
        exists w. split; [exact Hw|]. cbn in Hsum, Hcount |- *.
        split; [rewrite Hsum; ring | lia].
    + split; assumption.
Qed.

Lemma first_occurrences_incl (keys : list Q) k :
  In k (first_occurrences keys) -> In k keys.
Proof.
  revert k. induction keys as [|k0 rest IH]; intros k; cbn; [tauto|].
  intros [->|Hin]; [left; reflexivity|].
  right. apply IH. apply filter_In in Hin. tauto.
Qed.

Lemma StronglySorted_filter {A : Type} (R : A -> A -> Prop) (f : A -> bool)
    (l : list A) :
  StronglySorted R l -> StronglySorted R (List.filter f l).
Proof.
  induction 1 as [|x l Hl IH Hx]; cbn [List.filter]; [constructor|].
  destruct (f x); [|exact IH].
  constructor; [exact IH|].
  rewrite Forall_forall in Hx |- *. intros y Hy.
  apply Hx. apply list_elem_of_In in Hy. apply filter_In in Hy.
  apply list_elem_of_In. tauto.
Qed.

Lemma first_occurrences_covers (keys : list Q) k :
  In k keys -> key_mem k (first_occurrences keys) = true.
Proof.
  unfold key_mem. induction keys as [|k0 rest IH]; cbn [In first_occurrences existsb];
    [tauto|].
  intros [->|Hin]; [case_keys|].
  destruct (Qeq_bool k k0) eqn:E; [reflexivity|]. cbn [orb].
  apply Qeq_bool_neq in E. specialize (IH Hin).
  apply existsb_exists in IH as (x & Hx & Hkx). apply existsb_exists.
  exists x. split; [|exact Hkx].
  apply filter_In. split; [exact Hx|].
  apply Qeq_bool_iff in Hkx.
  destruct (Qeq_bool k0 x) eqn:E0; [|reflexivity].
  apply Qeq_bool_iff in E0. exfalso. lra.
Qed.

Lemma first_occurrences_distinct (keys : list Q) :
  distinct (first_occurrences keys).
Proof.
  unfold distinct. induction keys as [|k rest IH]; cbn; constructor.
  - apply StronglySorted_filter, IH.
  - rewrite Forall_forall. intros x Hx.
    apply list_elem_of_In, filter_In in Hx. destruct Hx as [_ Hx].
    destruct (Qeq_bool k x) eqn:E; [discriminate|].
    apply Qeq_bool_neq, E.
Qed.

(** The keys of the result of [aggregateByTimeWindow]. *)
Lemma aggregateByTimeWindow_keys data :
  map timestamp (aggregateByTimeWindow data windowMs)
  = first_occurrences (map key_of data).
Proof.
  unfold aggregateByTimeWindow. destruct data as [|p rest]; [reflexivity|].
  rewrite <- list_fmap_compose.
  transitivity (map fst (foldl (add_to_window windowMs) [] (p :: rest))).
  - apply map_ext. intros [k w]. reflexivity.
  - rewrite forEach_keys. change (map fst []) with (@nil Q). cbn [app].
    generalize (first_occurrences (map key_of (p :: rest))).
    intros l. induction l as [|x l IH]; [reflexivity|].
    change (x :: List.filter (fun k => negb (key_mem k [])) l = x :: l).
    rewrite IH. reflexivity.
Qed.

End TimeWindows.

Section Aggregation.

Implicit Types (data : list PointRef) (windowMs : Q).

(** The start of the window of a point does not go down when the timestamp
    goes up. *)
Lemma windowKey_monotone windowMs (p q : DataPoint) :
  (0 < windowMs)%Q -> (timestamp p <= timestamp q)%Q ->
  (windowKey windowMs p <= windowKey windowMs q)%Q.
Proof.
  intros Hw Hpq. unfold windowKey.
  apply Qmult_le_compat_r; [|apply Qlt_le_weak, Hw].
  rewrite <- Zle_Qle. apply Qfloor_resp_le.
  unfold Qdiv. apply Qmult_le_compat_r; [exact Hpq|].
  apply Qinv_le_0_compat, Qlt_le_weak, Hw.
Qed.

Lemma first_occurrences_ascending (keys : list Q) :
  StronglySorted Qle keys -> StronglySorted Qlt (first_occurrences keys).
Proof.
  induction 1 as [|k rest Hrest IH Hk]; cbn [first_occurrences]; constructor.
  - apply StronglySorted_filter, IH.
  - rewrite Forall_forall in Hk |- *. intros x Hx.
    apply list_elem_of_In, filter_In in Hx. destruct Hx as [Hin Hne].
    apply first_occurrences_incl, list_elem_of_In, Hk in Hin.
    destruct (Qeq_bool k x) eqn:E; [discriminate|].
    apply Qeq_bool_neq in E. lra.
Qed.

(** The windows of the result, in terms of [windowKey] and [bucket]. *)
Lemma aggregateByTimeWindow_windows data windowMs :
  let out := aggregateByTimeWindow data windowMs in
  map timestamp out
  = first_occurrences (map (fun p : PointRef => windowKey windowMs p) data) /\
  Forall (fun p : PointRef =>
            key_mem (windowKey windowMs p) (map timestamp out) = true) data /\
  distinct (map timestamp out) /\
  Forall (fun o : DataPoint =>
            bucket windowMs (timestamp o) data <> [] /\
            value o == mean_value (bucket windowMs (timestamp o) data) /\
            category o = "aggregated"%string) out.
Proof.
  intros out.
  pose proof (aggregateByTimeWindow_keys windowMs data) as Hkeys. fold out in Hkeys.
  split; [exact Hkeys|]. split.
  { rewrite Hkeys, Forall_forall. intros p Hp.
    apply first_occurrences_covers, in_map_iff.
    exists p. split; [reflexivity|]. apply list_elem_of_In, Hp. }
  split.
  { rewrite Hkeys. apply first_occurrences_distinct. }
  subst out. unfold aggregateByTimeWindow in *.
  destruct data as [|p rest]; [constructor|].
  set (data := p :: rest) in *.
  set (windows := foldl (add_to_window windowMs) [] data) in *.
  assert (Hd : distinct (map fst windows)).
  { replace (map fst windows) with (map timestamp (map window_point windows)).
    - rewrite Hkeys. apply first_occurrences_distinct.
    - rewrite <- list_fmap_compose. apply map_ext. intros [k w]. reflexivity. }
  rewrite Forall_forall. intros o Ho.
  apply list_elem_of_In, in_map_iff in Ho. destruct Ho as ([k w] & <- & Hin).
  cbn [window_point timestamp value category].
  pose proof (map_get_entry windows k w Hd Hin) as Hget.
  destruct (forEach_entry windowMs [] data k) as [Hnone Hsome].
  fold windows in Hnone, Hsome. cbn [map_get default] in Hnone, Hsome.
  destruct (bucket windowMs k data) as [|q points] eqn:Hbucket.
  - rewrite Hnone in Hget by reflexivity. discriminate Hget.
  - destruct Hsome as (w' & Hw' & Hsum & Hcount); [discriminate|].
    rewrite Hget in Hw'. injection Hw' as <-.
    split; [discriminate|]. split; [|reflexivity].
    unfold mean_value. rewrite Hsum, Hcount. cbn [sum count].
    rewrite Qplus_0_l. reflexivity.
Qed.

(** On whole numbers the window of a timestamp [t] is [(t / w) * w] with the
    floored division of the integers: the multiple of [w] with
    [start <= t < start + w]. *)
Lemma windowKey_whole windowMs (w : Z) (p : DataPoint) (t : Z) :
  0 < w -> windowMs == inject_Z w -> timestamp p == inject_Z t ->
  windowKey windowMs p == inject_Z (t / w * w) /\
  t / w * w <= t < t / w * w + w.
Proof.
  intros Hw Hwindow Ht. split.
  - unfold windowKey.
    rewrite (Qfloor_comp _ (inject_Z t / inject_Z w)).
    + rewrite <- Zdiv_Qdiv, Hwindow, inject_Z_mult. reflexivity.
    + rewrite Hwindow, Ht. reflexivity.
  - pose proof (Z.mul_div_le t w Hw). pose proof (Z.mul_succ_div_gt t w Hw). lia.
Qed.

(** C3, as the code has it.  For timestamps and a window length that are whole
    numbers of milliseconds, [windowMs > 0], the window of a point is
    [floor(timestamp / windowMs) * windowMs], the multiple [start] of
    [windowMs] with [start <= timestamp < start + windowMs].  The points of
    the result stand in the order in which their windows first occur in the
    input; every point of the input is in the window of a point of the
    result; no two points of the result have the same window; and each point
    of the result has a window that holds a point of the input, the mean of
    the values of the points of that window as its value, and the category
    ["aggregated"]. *)
Theorem aggregateByTimeWindow_buckets data windowMs (w : Z) :
  0 < w -> whole windowMs w ->
  Forall (fun p : PointRef => exists t : Z, whole (timestamp p) t) data ->
  let start (p : DataPoint) : Q :=
    (inject_Z (Qfloor (timestamp p / windowMs)) * windowMs)%Q in
  let members (k : Q) : list PointRef :=
    List.filter (fun p : PointRef => Qeq_bool (start p) k) data in
  let out := aggregateByTimeWindow data windowMs in
  map timestamp out
  = first_occurrences (map (fun p : PointRef => start p) data) /\
  Forall (fun p : PointRef =>
            forall t : Z, timestamp p == inject_Z t ->
              start p == inject_Z (t / w * w) /\
              t / w * w <= t < t / w * w + w) data /\
  Forall (fun p : PointRef =>
            key_mem (start p) (map timestamp out) = true) data /\
  distinct (map timestamp out) /\
  Forall (fun o : DataPoint =>
            members (timestamp o) <> [] /\
            value o == mean_value (members (timestamp o)) /\
            category o = "aggregated"%string) out.
Proof.
  intros Hw [Hwindow _] _ start members out.
  destruct (aggregateByTimeWindow_windows data windowMs)
    as (Horder & Hcover & Hdistinct & Hmean).
  split; [exact Horder|]. split; [|split; [exact Hcover|]].
  - rewrite Forall_forall. intros p _ t Ht.
    exact (windowKey_whole windowMs w p t Hw Hwindow Ht).
  - split; [exact Hdistinct | exact Hmean].
Qed.

(** C3 as stated fails: nothing sorts the result, and an input whose
    timestamps go down gives windows that go down. *)
Lemma aggregateByTimeWindow_order_refuted :
  ~ (forall data windowMs,
       (0 < windowMs)%Q ->
       Sorted Qle (map timestamp (aggregateByTimeWindow data windowMs))).
Proof.
  intros Hclaim.
  specialize (Hclaim sample_unordered 100%Q eq_refl).
  vm_compute in Hclaim.
  apply Sorted_inv in Hclaim as [_ Hhead].
  apply HdRel_inv in Hhead. vm_compute in Hhead. apply Hhead. reflexivity.
Qed.

(** C10.  When the timestamps of the input do not go down and
    [windowMs > 0], the timestamps of the result go strictly up. *)
Theorem aggregateByTimeWindow_ascending data windowMs :
  (0 < windowMs)%Q ->
  Sorted Qle (map (fun p : PointRef => timestamp p) data) ->
  StronglySorted Qlt (map timestamp (aggregateByTimeWindow data windowMs)).
Proof.
  intros Hw Hsorted.
  rewrite aggregateByTimeWindow_keys. apply first_occurrences_ascending.
  apply Sorted_StronglySorted in Hsorted; [|intros a b c; apply Qle_trans].
  induction data as [|p rest IH]; cbn [map] in *; [constructor|].
  apply StronglySorted_inv in Hsorted as [Hrest Hp].
  constructor; [apply IH, Hrest|].
  rewrite Forall_forall in Hp |- *. intros k Hk.
  apply list_elem_of_In, in_map_iff in Hk. destruct Hk as (q & <- & Hq).
  apply windowKey_monotone; [exact Hw|].
  apply Hp, list_elem_of_In, in_map_iff. exists q. split; [reflexivity|exact Hq].
Qed.

(** C8.  On the empty sequence every operation returns its default or
    empty result. *)
Theorem empty_input (maxPoints threshold : Z) windowMs :
  0 <= threshold ->
  calculateScales []
  = {| xMin := 0; xMax := 1; xRange := 1; yMin := 0; yMax := 1; yRange := 1 |} /\
  downsampleSimple [] maxPoints = Some [] /\
  downsampleLTTB [] threshold = Some [] /\
  aggregateByCategory [] = ∅ /\
  aggregateByTimeWindow [] windowMs = [].
Proof.
  intros Hthreshold. split; [reflexivity|]. split; [|split].
  - unfold downsampleSimple. change (len []) with 0.
    destruct (Z.leb_spec 0 maxPoints) as [_|Hneg]; [reflexivity|].
    destruct (Z.eqb_spec maxPoints 0) as [?|_]; [lia|]. reflexivity.
  - unfold downsampleLTTB. change (len []) with 0.
    destruct (Z.leb_spec 0 threshold) as [_|?]; [reflexivity|lia].
  - split; reflexivity.
Qed.

End Aggregation.

(** ** The properties at the sample data *)

Lemma downsampleLTTB_shape_sample :
  3 <= 3 /\ 3 < len sample6 /\
  exists sampled,
    downsampleLTTB sample6 3 = Some sampled /\
    len sampled = 3 /\
    head sampled = head sample6 /\
    last sampled = last sample6.
Proof.
  split; [lia|]. split; [reflexivity|].
  apply (downsampleLTTB_shape sample6 3); [lia | reflexivity].
Defined.

Lemma addDataPoint_sliding_window_sample :
  let st := Stream.mkState (take 3 sample6) true in
  let point := sample_point 4 180 40 in
  let result := Stream.data (Stream.addDataPoint 3 (inl point) st) in
  1 <= 3 /\
  (len (take 3 sample6 ++ [point]) <= 3 -> result = take 3 sample6 ++ [point]) /\
  (3 < len (take 3 sample6 ++ [point]) ->
     result = drop 1 (take 3 sample6 ++ [point]) /\
     len result = 3 /\
     exists evicted, take 3 sample6 ++ [point] = evicted ++ result) /\
  (forall point' : PointRef,
     @inl PointRef (list PointRef) point = inl point' ->
     len (take 3 sample6) = 3 ->
     result = drop 1 (take 3 sample6) ++ [point']).
Proof.
  intros st point result. split; [lia|].
  apply (addDataPoint_sliding_window st 3 (inl point)). lia.
Defined.

Lemma aggregateByTimeWindow_buckets_sample :
  0 < 100 /\ whole 100 100 /\
  Forall (fun p : PointRef => exists t : Z, whole (timestamp p) t) sample4 /\
  let start (p : DataPoint) : Q :=
    (inject_Z (Qfloor (timestamp p / 100)) * 100)%Q in
  let members (k : Q) : list PointRef :=
    List.filter (fun p : PointRef => Qeq_bool (start p) k) sample4 in
  let out := aggregateByTimeWindow sample4 100 in
  map timestamp out
  = first_occurrences (map (fun p : PointRef => start p) sample4) /\
  Forall (fun p : PointRef =>
            forall t : Z, timestamp p == inject_Z t ->
              start p == inject_Z (t / 100 * 100) /\
              t / 100 * 100 <= t < t / 100 * 100 + 100) sample4 /\
  Forall (fun p : PointRef =>
            key_mem (start p) (map timestamp out) = true) sample4 /\
  distinct (map timestamp out) /\
  Forall (fun o : DataPoint =>
            members (timestamp o) <> [] /\
            value o == mean_value (members (timestamp o)) /\
            category o = "aggregated"%string) out.
Proof.
  assert (Hwindow : whole 100 100) by (split; [reflexivity | reflexivity]).
  assert (Hdata : Forall (fun p : PointRef =>
                            exists t : Z, whole (timestamp p) t) sample4).
  { constructor; [exists 0; split; reflexivity|].
    constructor; [exists 50; split; reflexivity|].
    constructor; [exists 150; split; reflexivity|].
    constructor; [exists 180; split; reflexivity|].
    constructor. }
  split; [lia|]. split; [exact Hwindow|]. split; [exact Hdata|].
  apply (aggregateByTimeWindow_buckets sample4 100 100); [lia | exact Hwindow | exact Hdata].
Defined.

Lemma downsample_identity_sample :
  len sample6 <= 6 /\
  downsampleSimple sample6 6 = Some sample6 /\
  downsampleLTTB sample6 6 = Some sample6.
Proof.
  split; [vm_compute; discriminate|].
  apply (downsample_identity sample6 6). vm_compute. discriminate.
Defined.

Lemma dataToCanvas_corners_sample :
  let point := target (sample_point 6 300 40) in
  let s := calculateScales sample6 in
  let px := dataToCanvas point s 800 600 0 in
  sample6 <> [] /\
  (timestamp point == xMin s -> Pixel.x px == 0) /\
  (value point == yMin s -> Pixel.y px == 600) /\
  (timestamp point == xMax s ->
     (~ xMax s == xMin s -> Pixel.x px == 800) /\
     (xMax s == xMin s -> Pixel.x px == 0)) /\
  (value point == yMax s ->
     (~ yMax s == yMin s -> Pixel.y px == 0) /\
     (yMax s == yMin s -> Pixel.y px == 600)).
Proof.
  intros point s px. split; [discriminate|].
  apply (dataToCanvas_corners sample6 point 800 600). discriminate.
Defined.

Lemma empty_input_sample :
  0 <= 3 /\
  calculateScales []
  = {| xMin := 0; xMax := 1; xRange := 1; yMin := 0; yMax := 1; yRange := 1 |} /\
  downsampleSimple [] 3 = Some [] /\
  downsampleLTTB [] 3 = Some [] /\
  aggregateByCategory [] = ∅ /\
  aggregateByTimeWindow [] 100 = [].
Proof.
  split; [lia|]. apply (empty_input 3 3 100). lia.
Defined.

Lemma aggregateByTimeWindow_ascending_sample :
  (0 < 100)%Q /\
  Sorted Qle (map (fun p : PointRef => timestamp p) sample4) /\
  StronglySorted Qlt (map timestamp (aggregateByTimeWindow sample4 100)).
Proof.
  assert (Hsorted : Sorted Qle (map (fun p : PointRef => timestamp p) sample4)).
  { vm_compute. repeat constructor; discriminate. }
  split; [reflexivity|]. split; [exact Hsorted|].
  apply (aggregateByTimeWindow_ascending sample4 100); [reflexivity|exact Hsorted].
Defined.

(** ** The examples of the specification *)

(** Capacity 3, the points 1 to 5 appended one at a time: 3, 4, 5 remain. *)
Example addDataPoint_one_by_one :
  let append st a := Stream.addDataPoint 3 (inl (sample_point a 0 0)) st in
  map addr (Stream.data (foldl append (Stream.mkState [] true)
                           [1; 2; 3; 4; 5]%positive))
  = [3; 4; 5]%positive.
Proof. reflexivity. Qed.

(** Replacing a buffer of capacity 3 by six points keeps the six points. *)
Example replaceData_longer_than_capacity :
  let st := Stream.addDataPoint 3 (inr sample6) (Stream.mkState [] true) in
  len (Stream.data st) = 3 /\
  Stream.data (Stream.replaceData sample6 st) = sample6.
Proof. split; reflexivity. Qed.

(** Timestamps 0, 50, 150, 180 with values 10, 20, 30, 40 and windows of
    100: the window at 0 has mean 15, the window at 100 has mean 35. *)
Example aggregateByTimeWindow_example :
  map timestamp (aggregateByTimeWindow sample4 100) = [0; 100]%Q /\
  Forall2 Qeq (map value (aggregateByTimeWindow sample4 100)) [15; 35]%Q.
Proof. split; [reflexivity|]. repeat constructor. Qed.

(** Categories A, B, A with values 10, 5, 7 sum to A: 17 and B: 5. *)
Example aggregateByCategory_example :
  let point a c v :=
    {| addr := a;
       target := {| timestamp := 0; value := v; category := c |} |} in
  aggregateByCategory [point 1%positive "A" 10%Q; point 2%positive "B" 5%Q;
                       point 3%positive "A" 7%Q]
  = {[ "A" := 17%Q; "B" := 5%Q ]}.
Proof. vm_compute. reflexivity. Qed.

(** * Further properties of the code *)

(** ** Scales: bounds and the plot area *)

Section ScaleBounds.

Implicit Types (data : list PointRef) (p q : PointRef) (x y : Q) (xs : list Q).

Lemma Math_min_lower x xs :
  (Math_min x xs <= x)%Q /\ Forall (fun y => (Math_min x xs <= y)%Q) xs.
Proof.
  unfold Math_min. revert x. induction xs as [|y xs IH]; intros x; cbn [foldl].
  - split; [apply Qle_refl | constructor].
  - destruct (IH (Qmin x y)) as [Hhead Hrest]. split; [|constructor].
    + eapply Qle_trans; [exact Hhead | apply Q.le_min_l].
    + eapply Qle_trans; [exact Hhead | apply Q.le_min_r].
    + exact Hrest.
Qed.

Lemma Math_max_upper x xs :
  (x <= Math_max x xs)%Q /\ Forall (fun y => (y <= Math_max x xs)%Q) xs.
Proof.
  unfold Math_max. revert x. induction xs as [|y xs IH]; intros x; cbn [foldl].
  - split; [apply Qle_refl | constructor].
  - destruct (IH (Qmax x y)) as [Hhead Hrest]. split; [|constructor].
    + eapply Qle_trans; [apply Q.le_max_l | exact Hhead].
    + eapply Qle_trans; [apply Q.le_max_r | exact Hhead].
    + exact Hrest.
Qed.

Lemma Math_min_attained x xs : In (Math_min x xs) (x :: xs).
Proof.
  unfold Math_min. revert x. induction xs as [|y xs IH]; intros x; cbn [foldl].
  - left. reflexivity.
  - destruct (IH (Qmin x y)) as [Heq|Hin]; [|right; right; exact Hin].
    rewrite <- Heq. unfold Qmin, GenericMinMax.gmin.
    destruct (x ?= y)%Q; [left | left | right; left]; reflexivity.
Qed.

Lemma Math_max_attained x xs : In (Math_max x xs) (x :: xs).
Proof.
  unfold Math_max. revert x. induction xs as [|y xs IH]; intros x; cbn [foldl].
  - left. reflexivity.
  - destruct (IH (Qmax x y)) as [Heq|Hin]; [|right; right; exact Hin].
    rewrite <- Heq. unfold Qmax, GenericMinMax.gmax.
    destruct (x ?= y)%Q; [left | right; left | left]; reflexivity.
Qed.

(** Every point of the data lies between the bounds of the scale. *)
Lemma scale_encloses data p :
  In p data ->
  let s := calculateScales data in
  (xMin s <= timestamp p <= xMax s)%Q /\ (yMin s <= value p <= yMax s)%Q.
Proof.
  intros Hin. destruct data as [|d rest]; [destruct Hin|].
  cbn [calculateScales xMin xMax yMin yMax].
  pose proof (Math_min_lower (timestamp d)
                (map (fun p : PointRef => timestamp p) rest)) as [Hx0 Hx1].
  pose proof (Math_max_upper (timestamp d)
                (map (fun p : PointRef => timestamp p) rest)) as [Hx2 Hx3].
  pose proof (Math_min_lower (value d)
                (map (fun p : PointRef => value p) rest)) as [Hy0 Hy1].
  pose proof (Math_max_upper (value d)
                (map (fun p : PointRef => value p) rest)) as [Hy2 Hy3].
  destruct Hin as [<-|Hin]; [tauto|].
  rewrite Forall_forall in Hx1, Hx3, Hy1, Hy3.
  assert (Ht : timestamp p ∈ map (fun p : PointRef => timestamp p) rest).
  { apply list_elem_of_In, in_map_iff. exists p. tauto. }
  assert (Hv : value p ∈ map (fun p : PointRef => value p) rest).
  { apply list_elem_of_In, in_map_iff. exists p. tauto. }
  repeat split; auto.
Qed.

(** The ranges of a computed scale are positive. *)
Lemma scale_ranges_positive data :
  let s := calculateScales data in
  (0 < xRange s)%Q /\ (0 < yRange s)%Q.
Proof.
  destruct data as [|d rest]; [split; reflexivity|].
  destruct (scale_encloses (d :: rest) d (or_introl eq_refl)) as [Hx Hy].
  destruct (calculateScales_ranges (d :: rest)) as [Ex Ey].
  cbn zeta in *. rewrite Ex, Ey. unfold or_else.
  split.
  - destruct (Qeq_bool _ 0) eqn:E; [reflexivity|].
    apply Qeq_bool_neq in E. lra.
  - destruct (Qeq_bool _ 0) eqn:E; [reflexivity|].
    apply Qeq_bool_neq in E. lra.
Qed.

(** The share of the range below a point of the data is between 0 and 1. *)
Lemma scale_share lo hi range t :
  (lo <= t <= hi)%Q -> range = or_else (hi - lo) 1 ->
  (0 <= (t - lo) / range <= 1)%Q.
Proof.
  intros Ht ->. unfold or_else.
  destruct (Qeq_bool (hi - lo) 0) eqn:E.
  - apply Qeq_bool_iff in E.
    assert (Hz : t - lo == 0) by lra. rewrite Hz.
    unfold Qdiv. rewrite Qmult_0_l. split; lra.
  - apply Qeq_bool_neq in E.
    assert (Hpos : (0 < hi - lo)%Q) by lra.
    split.
    + apply Qle_shift_div_l; [exact Hpos | lra].
    + apply Qle_shift_div_r; [exact Hpos | lra].
Qed.

(** X1.  For non-empty data the bounds of the scale enclose every point, and
    each bound is the timestamp or the value of a point of the data. *)
Theorem calculateScales_bounds data :
  data <> [] ->
  let s := calculateScales data in
  Forall (fun p : PointRef =>
            (xMin s <= timestamp p <= xMax s)%Q /\
            (yMin s <= value p <= yMax s)%Q) data /\
  In (xMin s) (map (fun p : PointRef => timestamp p) data) /\
  In (xMax s) (map (fun p : PointRef => timestamp p) data) /\
  In (yMin s) (map (fun p : PointRef => value p) data) /\
  In (yMax s) (map (fun p : PointRef => value p) data).
Proof.
  intros Hne s. split.
  - rewrite Forall_forall. intros p Hp.
    apply (scale_encloses data p). apply list_elem_of_In, Hp.
  - subst s. destruct data as [|d rest]; [contradiction|].
    cbn [calculateScales xMin xMax yMin yMax map].
    repeat split;
      first [apply Math_min_attained | apply Math_max_attained].
Qed.

(** A point of the data is drawn inside the plot area. *)
Lemma point_in_plot data p (width height padding : Q) :
  In p data ->
  (0 <= width - padding * 2)%Q -> (0 <= height - padding * 2)%Q ->
  let px := dataToCanvas p (calculateScales data) width height padding in
  in_plot width height padding (Pixel.x px, Pixel.y px).
Proof.
  intros Hin Hw Hh px. subst px.
  destruct (scale_encloses data p Hin) as [Hx Hy].
  destruct (calculateScales_ranges data) as [Ex Ey]. cbn zeta in *.
  pose proof (scale_share _ _ _ _ Hx Ex) as Hsx.
  pose proof (scale_share _ _ _ _ Hy Ey) as Hsy.
  unfold in_plot, dataToCanvas. cbn [fst snd Pixel.x Pixel.y].
  set (rx := ((timestamp p - xMin (calculateScales data))
              / xRange (calculateScales data))%Q) in *.
  set (ry := ((value p - yMin (calculateScales data))
              / yRange (calculateScales data))%Q) in *.
  repeat split; nra.
Qed.

(** Whole pixel sizes with [2 * padding] at most the size leave room for
    the plot area. *)
Lemma whole_room (size padding : Q) (S P : Z) :
  whole size S -> whole padding P -> 2 * P <= S ->
  (0 <= size - padding * 2)%Q.
Proof.
  intros [Hsize _] [Hpadding _] Hroom. rewrite Hsize, Hpadding.
  assert (H : (inject_Z (P * 2) <= inject_Z S)%Q) by (rewrite <- Zle_Qle; lia).
  rewrite inject_Z_mult in H. change (inject_Z 2) with 2%Q in H. lra.
Qed.

(** X2.  For a canvas whose width, height and padding are whole numbers of
    pixels, with [2 * padding] at most the width and the height, every point
    of the data is drawn inside the plot area: between [padding] and
    [width - padding] across, and between [padding] and [height - padding]
    down. *)
Theorem dataToCanvas_in_plot data (width height padding : Q) (W H P : Z) :
  whole width W -> whole height H -> whole padding P ->
  2 * P <= W -> 2 * P <= H ->
  Forall (fun p : PointRef =>
            let px := dataToCanvas p (calculateScales data)
                        width height padding in
            in_plot width height padding (Pixel.x px, Pixel.y px)) data.
Proof.
  intros HW HH HP Hw Hh.
  pose proof (whole_room width padding W P HW HP Hw) as Hwidth.
  pose proof (whole_room height padding H P HH HP Hh) as Hheight.
  rewrite Forall_forall. intros p Hp.
  apply point_in_plot; [apply list_elem_of_In, Hp | exact Hwidth | exact Hheight].
Qed.

(** X3.  The mapping keeps the order of timestamps from left to right and
    turns the order of values upside down: a later point is not drawn
    further left, a larger value is not drawn further down. *)
Theorem dataToCanvas_monotone data (p q : DataPoint) (width height padding : Q) :
  (0 <= width - padding * 2)%Q -> (0 <= height - padding * 2)%Q ->
  let s := calculateScales data in
  ((timestamp p <= timestamp q)%Q ->
   (Pixel.x (dataToCanvas p s width height padding)
    <= Pixel.x (dataToCanvas q s width height padding))%Q) /\
  ((value p <= value q)%Q ->
   (Pixel.y (dataToCanvas q s width height padding)
    <= Pixel.y (dataToCanvas p s width height padding))%Q).
Proof.
  intros Hw Hh s. subst s.
  destruct (scale_ranges_positive data) as [Hx Hy]. cbn zeta in *.
  unfold dataToCanvas. cbn [Pixel.x Pixel.y].
  set (s := calculateScales data) in *.
  split; intros Hle.
  - assert (H1 : ((timestamp p - xMin s) / xRange s
                  <= (timestamp q - xMin s) / xRange s)%Q).
    { unfold Qdiv. apply Qmult_le_compat_r; [lra|].
      apply Qinv_le_0_compat, Qlt_le_weak, Hx. }
    nra.
  - assert (H1 : ((value p - yMin s) / yRange s
                  <= (value q - yMin s) / yRange s)%Q).
    { unfold Qdiv. apply Qmult_le_compat_r; [lra|].
      apply Qinv_le_0_compat, Qlt_le_weak, Hy. }
    nra.
Qed.

End ScaleBounds.

(** ** Stride downsampling: what is kept *)

Section StrideShape.

Implicit Types (data sampled picks : list PointRef) (step i maxPoints : Z).

Lemma read_lookup data i (d : PointRef) :
  read data i = Some d -> 0 <= i /\ data !! Z.to_nat i = Some d.
Proof.
  unfold read. destruct (Z.ltb_spec i 0) as [?|Hi]; [discriminate|].
  intros Hd. split; [exact Hi | exact Hd].
Qed.

(** With a positive stride the loop keeps points of the array in their
    order, the one at [i] first. *)
Lemma stride_loop_picks (fuel : nat) data step i sampled :
  1 <= step -> 0 <= i -> len data - i <= Z.of_nat fuel ->
  exists picks,
    stride_loop fuel data step i sampled = Some (sampled ++ picks) /\
    picks `sublist_of` drop (Z.to_nat i) data /\
    (i < len data -> head picks = read data i).
Proof.
  intros Hstep. revert i sampled.
  induction fuel as [|fuel IH]; intros i sampled Hi Hfuel; cbn [stride_loop].
  - destruct (Z.ltb_spec i (len data)) as [?|_]; [lia|].
    exists []. rewrite app_nil_r. split; [reflexivity|].
    split; [apply sublist_nil_l | lia].
  - destruct (Z.ltb_spec i (len data)) as [Hlt|Hge].
    + destruct (read_in_range data i) as [d Hd]; [lia|].
      rewrite Hd. cbn [mbind option_bind].
      destruct (IH (i + step) (sampled ++ [d])) as (picks & Hrun & Hsub & _);
        [lia | lia |].
      exists (d :: picks). rewrite Hrun, <- app_assoc. cbn [app].
      split; [reflexivity|]. split; [|intros _; reflexivity].
      apply read_lookup in Hd as [_ Hd].
      rewrite (drop_S _ _ _ Hd). apply sublist_skip.
      etransitivity; [exact Hsub|].
      replace (Z.to_nat (i + step))
        with (Datatypes.S (Z.to_nat i) + Z.to_nat (step - 1))%nat by lia.
      rewrite <- drop_drop. apply sublist_drop.
    + exists []. rewrite app_nil_r. split; [reflexivity|].
      split; [apply sublist_nil_l | lia].
Qed.

(** With a stride that is not positive the loop never ends on a non-empty
    array. *)
Lemma stride_loop_diverges (fuel : nat) data step i sampled :
  step <= 0 -> i < len data ->
  stride_loop fuel data step i sampled = None.
Proof.
  intros Hstep. revert i sampled.
  induction fuel as [|fuel IH]; intros i sampled Hi; cbn [stride_loop];
    destruct (Z.ltb_spec i (len data)) as [_|?]; try lia; [reflexivity|].
  destruct (read data i) as [d|]; [|reflexivity].
  cbn [mbind option_bind]. apply IH. lia.
Qed.

(** The statement after the loop keeps a sublist a sublist, keeps its first
    point, and leaves the last object of the array at the end. *)
Lemma include_last_shape data sampled :
  sampled `sublist_of` data ->
  include_last data sampled `sublist_of` data /\
  (sampled <> [] -> head (include_last data sampled) = head sampled) /\
  strict_neq (last (include_last data sampled)) (last data) = false.
Proof.
  intros Hsub. unfold include_last.
  destruct (strict_neq (last sampled) (last data)) eqn:Hneq.
  - destruct (last data) as [l|] eqn:Hlast.
    + apply last_Some in Hlast as [init ->].
      change (option_list (Some l)) with [l]. split; [|split].
      * apply sublist_app_r in Hsub as (l1 & l2 & -> & H1 & H2).
        apply sublist_app; [|reflexivity].
        destruct l2 as [|x l2]; [rewrite app_nil_r; exact H1|].
        exfalso. apply sublist_cons_l in H2 as (k1 & k2 & Hk & Hl2).
        destruct k1 as [|? [|? ?]]; try discriminate Hk.
        injection Hk as -> <-. apply sublist_nil_r in Hl2 as ->.
        rewrite last_snoc in Hneq. cbn in Hneq.
        rewrite Pos.eqb_refl in Hneq. discriminate Hneq.
      * intros Hne. destruct sampled; [contradiction | reflexivity].
      * rewrite last_snoc. cbn. rewrite Pos.eqb_refl. reflexivity.
    + apply last_None in Hlast as ->. apply sublist_nil_r in Hsub as ->.
      discriminate Hneq.
  - split; [exact Hsub|]. split; [reflexivity | exact Hneq].
Qed.

Lemma stride_step_sign data maxPoints :
  maxPoints < 0 ->
  Qceiling (inject_Z (len data) / inject_Z maxPoints) <= 0.
Proof.
  intros Hneg. rewrite <- (Qceiling_Z 0). apply Qceiling_resp_le.
  assert (Hlen : (0 <= inject_Z (len data))%Q).
  { change 0%Q with (inject_Z 0). rewrite <- Zle_Qle. unfold len. lia. }
  assert (Hinv : (/ inject_Z maxPoints <= 0)%Q).
  { destruct maxPoints as [|m|m]; try lia. cbn. discriminate. }
  unfold Qdiv. change (inject_Z 0) with 0%Q. nra.
Qed.

Lemma stride_step_positive data maxPoints :
  1 <= maxPoints -> 0 < len data ->
  1 <= Qceiling (inject_Z (len data) / inject_Z maxPoints).
Proof.
  intros Hmin Hlen.
  set (step := Qceiling (inject_Z (len data) / inject_Z maxPoints)).
  assert (Hcover : len data <= step * maxPoints); [|nia].
  rewrite Zle_Qle, inject_Z_mult.
  assert (Hden : (0 < inject_Z maxPoints)%Q).
  { change 0%Q with (inject_Z 0). rewrite <- Zlt_Qlt. lia. }
  apply Qle_trans
    with ((inject_Z (len data) / inject_Z maxPoints) * inject_Z maxPoints)%Q.
  - apply Qle_lteq. right. field.
    intros E. rewrite E in Hden. exact (Qlt_irrefl _ Hden).
  - apply Qmult_le_compat_r; [apply Qle_ceiling | apply Qlt_le_weak, Hden].
Qed.

(** The shape of what the stride downsampler returns. *)
Lemma downsampleSimple_shape data maxPoints :
  0 <= maxPoints ->
  exists sampled,
    downsampleSimple data maxPoints = Some sampled /\
    sampled `sublist_of` data /\
    head sampled = head data /\
    strict_neq (last sampled) (last data) = false.
Proof.
  intros Hmin. unfold downsampleSimple.
  destruct (Z.leb_spec (len data) maxPoints) as [Hshort|Hlong].
  { exists data. split; [reflexivity|]. split; [reflexivity|].
    split; [reflexivity|]. destruct (last data); cbn; [|reflexivity].
    rewrite Pos.eqb_refl. reflexivity. }
  assert (Hpicks : exists picks,
             picks `sublist_of` data /\ picks <> [] /\
             head picks = head data /\
             (if maxPoints =? 0 then d ← read data 0; Some (include_last data [d])
              else sampled ← stride_loop (length data) data
                     (Qceiling (inject_Z (len data) / inject_Z maxPoints)) 0 [];
                   Some (include_last data sampled))
             = Some (include_last data picks)).
  { destruct (Z.eqb_spec maxPoints 0) as [->|Hnz].
    - destruct (read_in_range data 0) as [d Hd]; [lia|].
      rewrite Hd. cbn [mbind option_bind]. exists [d].
      rewrite read_first in Hd.
      split; [|split; [discriminate|split; [symmetry; exact Hd|reflexivity]]].
      destruct data as [|d0 rest]; [discriminate Hd|]. injection Hd as ->.
      apply sublist_skip, sublist_nil_l.
    - set (step := Qceiling (inject_Z (len data) / inject_Z maxPoints)).
      assert (Hstep : 1 <= step) by (apply stride_step_positive; lia).
      destruct (stride_loop_picks (length data) data step 0 [] Hstep)
        as (picks & Hrun & Hsub & Hhead); [lia | unfold len; lia |].
      rewrite Hrun. cbn [mbind option_bind app].
      exists picks. cbn [Z.to_nat drop] in Hsub.
      specialize (Hhead ltac:(lia)). rewrite read_first in Hhead.
      split; [exact Hsub|]. split; [|split; [exact Hhead|reflexivity]].
      intros ->. destruct data; [unfold len in Hlong; cbn in Hlong; lia|].
      discriminate Hhead. }
  destruct Hpicks as (picks & Hsub & Hne & Hhead & ->).
  destruct (include_last_shape data picks Hsub) as (Hs & Hh & Hl).
  exists (include_last data picks). split; [reflexivity|].
  split; [exact Hs|]. split; [|exact Hl].
  rewrite (Hh Hne). exact Hhead.
Qed.

(** C4, as the code has it.  For [maxPoints >= 1] and an input longer than
    [maxPoints] the stride downsampler returns at most [maxPoints + 1]
    points: the result starts with the first point of the input and ends with
    the very object that ends the input, which is kept also when the stride
    has already taken [maxPoints] points. *)
Theorem downsampleSimple_length data maxPoints :
  1 <= maxPoints -> maxPoints < len data ->
  exists sampled,
    downsampleSimple data maxPoints = Some sampled /\
    len sampled <= maxPoints + 1 /\
    head sampled = head data /\
    strict_neq (last sampled) (last data) = false.
Proof.
  intros Hmin Hlong.
  destruct (downsampleSimple_bound data maxPoints Hmin Hlong)
    as (sampled & Hrun & Hlen).
  destruct (downsampleSimple_shape data maxPoints) as (sampled' & Hrun' & _ & Hhead & Hlast);
    [lia|].
  rewrite Hrun in Hrun'. injection Hrun' as <-.
  exists sampled. split; [exact Hrun|]. split; [exact Hlen|].
  split; [exact Hhead | exact Hlast].
Qed.

(** X4.  For [maxPoints >= 1] and an input longer than [maxPoints] the
    stride downsampler returns (its loop ends), with at most one point more
    than [maxPoints]. *)
Theorem downsampleSimple_one_over data maxPoints :
  1 <= maxPoints -> maxPoints < len data ->
  exists sampled,
    downsampleSimple data maxPoints = Some sampled /\
    len sampled <= maxPoints + 1.
Proof. apply downsampleSimple_bound. Qed.

(** X5.  For [maxPoints >= 0] the stride downsampler returns points of the
    input in their order (a sublist), the first of which is the first point
    of the input and the last of which is the very object that ends the
    input. *)
Theorem downsampleSimple_keeps_order data maxPoints :
  0 <= maxPoints ->
  exists sampled,
    downsampleSimple data maxPoints = Some sampled /\
    sampled `sublist_of` data /\
    head sampled = head data /\
    strict_neq (last sampled) (last data) = false.
Proof. apply downsampleSimple_shape. Qed.

(** X6.  For a negative [maxPoints] and a non-empty input the stride is not
    positive and the loop of the stride downsampler never ends: there is no
    result. *)
Theorem downsampleSimple_negative_limit data maxPoints :
  maxPoints < 0 -> data <> [] ->
  downsampleSimple data maxPoints = None.
Proof.
  intros Hneg Hne. unfold downsampleSimple.
  assert (Hlen : 0 < len data).
  { destruct data; [contradiction | unfold len; cbn [length]; lia]. }
  destruct (Z.leb_spec (len data) maxPoints) as [?|_]; [lia|].
  destruct (Z.eqb_spec maxPoints 0) as [?|_]; [lia|].
  rewrite stride_loop_diverges; [reflexivity | | exact Hlen].
  apply stride_step_sign, Hneg.
Qed.

End StrideShape.

(** ** Largest-Triangle-Three-Buckets: what a round keeps *)

Section LTTBRounds.

Variables (data : list PointRef) (threshold : Z).
Hypothesis threshold_min : 3 <= threshold.
Hypothesis data_longer : threshold < len data.

Let bucketSize : Q := (inject_Z (len data - 2) / inject_Z (threshold - 2))%Q.

Lemma bucketSize_at_least_1 : (1 <= bucketSize)%Q.
Proof using threshold_min data_longer.
  unfold bucketSize. apply Qle_shift_div_l.
  - change 0%Q with (inject_Z 0). rewrite <- Zlt_Qlt. lia.
  - rewrite Qmult_1_l, <- Zle_Qle. lia.
Qed.

(** Each bucket starts after the start of the one before. *)
Lemma bucket_floor_step (i : Z) :
  Qfloor (inject_Z i * bucketSize) + 1
  <= Qfloor (inject_Z (i + 1) * bucketSize).
Proof using threshold_min data_longer.
  pose proof bucketSize_at_least_1 as Hbs.
  rewrite <- (Qfloor_Z (Qfloor (inject_Z i * bucketSize) + 1)).
  apply Qfloor_resp_le.
  pose proof (Qfloor_le (inject_Z i * bucketSize)) as Hfloor.
  rewrite (inject_Z_plus i 1), (inject_Z_plus (Qfloor _) 1).
  change (inject_Z 1) with 1%Q.
  set (x := (inject_Z i * bucketSize)%Q) in *.
  set (f := inject_Z (Qfloor x)) in *.
  rewrite Qmult_plus_distr_l, Qmult_1_l. fold x. lra.
Qed.

Lemma sum_loop_total (rounds : nat) (j : Z) (t v : Q) :
  0 <= j -> j + Z.of_nat rounds <= len data ->
  exists t' v',
    for_range rounds j (sum_body data) (t, v) = Some (t', v') /\
    t' == t + Qsum (map (fun p : PointRef => timestamp p)
                      (take rounds (drop (Z.to_nat j) data))) /\
    v' == v + Qsum (map (fun p : PointRef => value p)
                      (take rounds (drop (Z.to_nat j) data))).
Proof.
  revert j t v. induction rounds as [|n IH]; intros j t v Hj Hhi.
  - exists t, v. split; [reflexivity|]. rewrite take_0. cbn [map Qsum foldr].
    split; ring.
  - cbn [for_range].
    destruct (read_in_range data j) as [d Hd]; [lia|].
    assert (Hbody : sum_body data j (t, v)
                    = Some (t + timestamp d, v + value d)%Q)
      by (unfold sum_body; rewrite Hd; reflexivity).
    rewrite Hbody. cbn [mbind option_bind].
    destruct (IH (j + 1) (t + timestamp d)%Q (v + value d)%Q)
      as (t' & v' & Hrun & Ht & Hv); [lia | lia |].
    exists t', v'. split; [exact Hrun|].
    apply read_lookup in Hd as [_ Hd].
    rewrite (drop_S _ _ _ Hd). cbn [take map Qsum foldr].
    replace (Z.to_nat (j + 1)) with (Datatypes.S (Z.to_nat j)) in Ht, Hv by lia.
    fold (Qsum (map (fun p : PointRef => timestamp p)
                  (take n (drop (Datatypes.S (Z.to_nat j)) data)))).
    fold (Qsum (map (fun p : PointRef => value p)
                  (take n (drop (Datatypes.S (Z.to_nat j)) data)))).
    split; [rewrite Ht | rewrite Hv]; ring.
Qed.

Lemma Qgtb_lt (a b : Q) : Qgtb a b = true <-> (b < a)%Q.
Proof.
  unfold Qgtb. rewrite negb_true_iff. split.
  - intros H. apply Qnot_le_lt. intros Hle.
    apply Qle_bool_iff in Hle. congruence.
  - intros H. destruct (Qle_bool a b) eqn:E; [|reflexivity].
    apply Qle_bool_iff in E. exfalso. lra.
Qed.

(** The loop over a bucket ends on the first point of the largest area. *)
Lemma area_loop_largest (pointA : PointRef) (avgT avgV : Q) (lo hi : Z) :
  0 <= lo -> lo < hi -> hi <= len data ->
  let area (pB : PointRef) := triangle_area pointA pB avgT avgV in
  exists maxArea k kept,
    for_loop lo hi (area_body data pointA avgT avgV) ((-1)%Q, lo)
    = Some (maxArea, k) /\
    lo <= k < hi /\ read data k = Some kept /\
    (forall j pB, lo <= j < hi -> read data j = Some pB ->
                  (area pB <= area kept)%Q) /\
    (forall j pB, lo <= j < k -> read data j = Some pB ->
                  (area pB < area kept)%Q).
Proof.
  intros Hlo Hlt Hhi area.
  destruct (for_loop_inv
    (fun k (acc : Q * Z) =>
       (k = lo /\ acc = ((-1)%Q, lo)) \/
       (lo <= snd acc < k /\
        (exists pB, read data (snd acc) = Some pB /\ fst acc = area pB) /\
        (forall j pB, lo <= j < k -> read data j = Some pB ->
                      (area pB <= fst acc)%Q) /\
        (forall j pB, lo <= j < snd acc -> read data j = Some pB ->
                      (area pB < fst acc)%Q)))
    (area_body data pointA avgT avgV) lo hi ((-1)%Q, lo))
    as ([maxArea k] & Hrun & Hinv).
  { left. split; reflexivity. }
  { intros j [m mp] Hj Hacc. unfold area_body.
    destruct (read_in_range data j) as [pB Hp]; [lia|].
    rewrite Hp. cbn [mbind option_bind]. fold (area pB).
    assert (Hnew : (forall m', (forall i pB', lo <= i < j ->
                       read data i = Some pB' -> (area pB' <= m')%Q) ->
                     (m' < area pB)%Q ->
              (j + 1 = lo /\ (area pB, j) = ((-1)%Q, lo)) \/
              (lo <= snd (area pB, j) < j + 1 /\
               (exists pB', read data (snd (area pB, j)) = Some pB' /\
                            fst (area pB, j) = area pB') /\
               (forall i pB', lo <= i < j + 1 -> read data i = Some pB' ->
                              (area pB' <= fst (area pB, j))%Q) /\
               (forall i pB', lo <= i < snd (area pB, j) ->
                              read data i = Some pB' ->
                              (area pB' < fst (area pB, j))%Q)))).
    { intros m' Hle Hgt. right. cbn [fst snd].
      split; [lia|]. split; [exists pB; split; [exact Hp|reflexivity]|].
      split.
      - intros i pB' Hi Hr. destruct (Z.eq_dec i j) as [->|Hne].
        + rewrite Hp in Hr. injection Hr as <-. apply Qle_refl.
        + apply Qlt_le_weak. eapply Qle_lt_trans; [|exact Hgt].
          apply (Hle i); [lia | exact Hr].
      - intros i pB' Hi Hr. eapply Qle_lt_trans; [|exact Hgt].
        apply (Hle i); [lia | exact Hr]. }
    destruct Hacc as [[-> Hinit]|(Hmp & Hkept & Hle & Hstrict)].
    - injection Hinit as -> ->.
      assert (Hgt : ((-1) < area pB)%Q).
      { pose proof (Qabs_nonneg
          ((timestamp pointA - avgT) * (value pB - value pointA)
           - (timestamp pointA - timestamp pB) * (avgV - value pointA))) as H0.
        unfold area, triangle_area. lra. }
      rewrite (proj2 (Qgtb_lt _ _) Hgt).
      eexists. split; [reflexivity|]. apply (Hnew (-1)%Q); [|exact Hgt].
      intros i pB' Hi. lia.
    - cbn [fst snd] in *. destruct (Qgtb (area pB) m) eqn:Hcmp.
      + apply Qgtb_lt in Hcmp.
        eexists. split; [reflexivity|]. apply (Hnew m); assumption.
      + eexists. split; [reflexivity|]. right. cbn [fst snd].
        split; [lia|]. split; [exact Hkept|]. split; [|exact Hstrict].
        intros i pB' Hi Hr. destruct (Z.eq_dec i j) as [->|Hne].
        * rewrite Hp in Hr. injection Hr as <-.
          apply Qnot_lt_le. intros Hgt. apply Qgtb_lt in Hgt. congruence.
        * apply (Hle i); [lia | exact Hr]. }
  replace (Z.max lo hi) with hi in Hinv by lia.
  destruct Hinv as [[? _]|(Hk & (kept & Hkept & Harea) & Hle & Hstrict)]; [lia|].
  cbn [fst snd] in *. subst maxArea.
  exists (area kept), k, kept. repeat split; try assumption; lia.
Qed.

Lemma triangle_area_proper (pA pB : DataPoint) (t t' v v' : Q) :
  t == t' -> v == v' ->
  triangle_area pA pB t v == triangle_area pA pB t' v'.
Proof. intros Ht Hv. unfold triangle_area. rewrite Ht, Hv. reflexivity. Qed.

Lemma segment_length (lo hi : Z) :
  0 <= lo -> lo <= hi -> hi <= len data ->
  Z.of_nat (length (segment data lo hi)) = hi - lo.
Proof.
  intros Hlo Hle Hhi. unfold segment, len in *.
  rewrite length_take, length_drop. lia.
Qed.

(** A round of the outer loop, in full: it returns, it keeps a point of its
    own bucket, and no point of the bucket spans a larger triangle with the
    last kept point and the mean of the next bucket; the points of the bucket
    before the kept one span smaller triangles. *)
Lemma lttb_round_spec (i : Z) (sampled : list PointRef) (a : Z) :
  0 <= i < threshold - 2 -> 0 <= a < len data ->
  let rangeStart := Qfloor (inject_Z i * bucketSize) + 1 in
  let rangeEnd := Qfloor (inject_Z (i + 1) * bucketSize) + 1 in
  let nextEnd :=
    Z.min (Qfloor (inject_Z (i + 2) * bucketSize) + 1) (len data) in
  let next := segment data rangeEnd nextEnd in
  exists kept a' pointA,
    lttb_round data bucketSize i (sampled, a) = Some (sampled ++ [kept], a') /\
    read data a = Some pointA /\
    read data a' = Some kept /\
    1 <= rangeStart <= a' /\ a' < rangeEnd <= len data - 1 /\
    (forall j pB, rangeStart <= j < rangeEnd -> read data j = Some pB ->
       (triangle_area pointA pB (mean_timestamp next) (mean_value next)
        <= triangle_area pointA kept (mean_timestamp next) (mean_value next))%Q) /\
    (forall j pB, rangeStart <= j < a' -> read data j = Some pB ->
       (triangle_area pointA pB (mean_timestamp next) (mean_value next)
        < triangle_area pointA kept (mean_timestamp next) (mean_value next))%Q).
Proof using threshold_min data_longer.
  intros Hi Ha rangeStart rangeEnd nextEnd next.
  pose proof (bucket_floor_bounds data threshold threshold_min data_longer i
                ltac:(lia)) as Hb0.
  pose proof (bucket_floor_bounds data threshold threshold_min data_longer
                (i + 1) ltac:(lia)) as Hb1.
  pose proof (bucket_floor_step i) as Hs0.
  pose proof (bucket_floor_step (i + 1)) as Hs1.
  replace (i + 1 + 1) with (i + 2) in Hs1 by lia.
  fold bucketSize in Hb0, Hb1.
  assert (Hnext : rangeEnd < nextEnd <= len data) by (subst rangeEnd nextEnd; lia).
  assert (Hrange : 1 <= rangeStart < rangeEnd /\ rangeEnd <= len data - 1)
    by (subst rangeStart rangeEnd; lia).
  unfold lttb_round. fold rangeStart rangeEnd nextEnd.
  destruct (sum_loop_total (Z.to_nat (nextEnd - rangeEnd)) rangeEnd 0 0)
    as (sumT & sumV & Hsum & HsumT & HsumV); [lia | lia |].
  change (for_loop rangeEnd nextEnd (sum_body data) (0%Q, 0%Q)
          = Some (sumT, sumV)) in Hsum.
  rewrite Hsum. cbn [mbind option_bind].
  fold (segment data rangeEnd nextEnd) in HsumT, HsumV. fold next in HsumT, HsumV.
  destruct (read_in_range data a Ha) as [pointA HA]. rewrite HA.
  cbn [mbind option_bind].
  set (avgT := (sumT / inject_Z (nextEnd - rangeEnd))%Q).
  set (avgV := (sumV / inject_Z (nextEnd - rangeEnd))%Q).
  assert (HavgT : avgT == mean_timestamp next).
  { unfold avgT, mean_timestamp. subst next.
    rewrite segment_length by lia. rewrite HsumT, Qplus_0_l. reflexivity. }
  assert (HavgV : avgV == mean_value next).
  { unfold avgV, mean_value. subst next.
    rewrite segment_length by lia. rewrite HsumV, Qplus_0_l. reflexivity. }
  destruct (area_loop_largest pointA avgT avgV rangeStart
              (Z.min rangeEnd (len data)))
    as (maxArea & k & kept & Hrun & Hk & Hkept & Hle & Hstrict); [lia|lia|lia|].
  rewrite Hrun. cbn [mbind option_bind]. rewrite Hkept. cbn [mbind option_bind].
  exists kept, k, pointA.
  split; [reflexivity|]. split; [reflexivity|]. split; [exact Hkept|].
  split; [lia|]. split; [lia|]. split.
  - intros j pB Hj Hr.
    rewrite <- (triangle_area_proper pointA pB _ _ _ _ HavgT HavgV).
    rewrite <- (triangle_area_proper pointA kept _ _ _ _ HavgT HavgV).
    apply (Hle j); [lia | exact Hr].
  - intros j pB Hj Hr.
    rewrite <- (triangle_area_proper pointA pB _ _ _ _ HavgT HavgV).
    rewrite <- (triangle_area_proper pointA kept _ _ _ _ HavgT HavgV).
    apply (Hstrict j); [lia | exact Hr].
Qed.

Lemma take_sublist_take (n m : nat) (l : list PointRef) :
  (n <= m)%nat -> take n l `sublist_of` take m l.
Proof.
  intros Hnm. replace n with (n `min` m)%nat by lia.
  rewrite <- take_take. apply sublist_take.
Qed.

(** X7.  On an input longer than [threshold >= 3] the LTTB downsampler
    returns points of the input in their order (a sublist): nothing is made
    up, repeated or reordered. *)
Theorem downsampleLTTB_keeps_order :
  exists sampled,
    downsampleLTTB data threshold = Some sampled /\
    sampled `sublist_of` data.
Proof using threshold_min data_longer.
  unfold downsampleLTTB.
  destruct (Z.leb_spec (len data) threshold) as [?|_]; [lia|].
  destruct (read_in_range data 0) as [first Hfirst]; [lia|].
  rewrite Hfirst. cbn [mbind option_bind]. fold bucketSize.
  destruct (for_loop_inv
              (fun i (st : list PointRef * Z) =>
                 0 <= snd st < Qfloor (inject_Z i * bucketSize) + 1 /\
                 fst st `sublist_of` take (Z.to_nat (snd st) + 1) data)
              (lttb_round data bucketSize) 0 (threshold - 2) ([first], 0))
    as ([sampled a] & Hloop & Ha & Hsub).
  { cbn [fst snd]. split.
    - pose proof (bucket_floor_bounds data threshold threshold_min data_longer
                    0 ltac:(lia)) as Hb.
      fold bucketSize in Hb. lia.
    - apply read_lookup in Hfirst as [_ Hfirst].
      change (Z.to_nat 0) with 0%nat in *. change (0 + 1)%nat with 1%nat.
      rewrite (take_S_r _ 0 _ Hfirst). reflexivity. }
  { intros i [sampled a] Hi (Ha & Hsub). cbn [fst snd] in *.
    pose proof (bucket_floor_bounds data threshold threshold_min data_longer
                  i ltac:(lia)) as Hb.
    fold bucketSize in Hb.
    destruct (lttb_round_spec i sampled a Hi ltac:(lia))
      as (kept & a' & _ & Hround & _ & Hkept & Hlo & Hhi & _).
    exists (sampled ++ [kept], a'). split; [exact Hround|]. cbn [fst snd].
    split; [lia|].
    apply read_lookup in Hkept as [_ Hkept].
    replace (Z.to_nat a' + 1)%nat with (Datatypes.S (Z.to_nat a')) by lia.
    rewrite (take_S_r _ _ _ Hkept). apply sublist_app; [|reflexivity].
    etransitivity; [exact Hsub|]. apply take_sublist_take. lia. }
  rewrite Hloop. cbn [mbind option_bind fst snd] in *.
  replace (Z.max 0 (threshold - 2)) with (threshold - 2) in Ha by lia.
  pose proof (bucket_floor_bounds data threshold threshold_min data_longer
                (threshold - 2) ltac:(lia)) as Hb.
  fold bucketSize in Hb.
  destruct (read_in_range data (len data - 1)) as [final Hfinal]; [lia|].
  rewrite Hfinal. cbn [mbind option_bind].
  exists (sampled ++ [final]). split; [reflexivity|].
  apply read_lookup in Hfinal as [_ Hfinal].
  rewrite <- (take_drop (Z.to_nat (len data - 1)) data).
  rewrite (drop_S _ _ _ Hfinal), drop_ge by (unfold len; lia).
  apply sublist_app; [|reflexivity].
  etransitivity; [exact Hsub|]. apply take_sublist_take. lia.
Qed.

End LTTBRounds.

(** X9.  Below the documented minimum, for [threshold <= 2], the LTTB
    downsampler returns just the first and the last point of a longer,
    non-empty input: two points, also when [threshold] is 1, 0 or
    negative. *)
Theorem downsampleLTTB_small_threshold (data : list PointRef) (threshold : Z) :
  threshold <= 2 -> threshold < len data -> data <> [] ->
  exists first final,
    head data = Some first /\ last data = Some final /\
    downsampleLTTB data threshold = Some [first; final].
Proof.
  intros Hsmall Hlong Hne. unfold downsampleLTTB.
  destruct (Z.leb_spec (len data) threshold) as [?|_]; [lia|].
  rewrite read_first, read_final by exact Hne.
  destruct data as [|first rest]; [contradiction|]. cbn [head].
  destruct (last (first :: rest)) as [final|] eqn:Hlast;
    [|apply last_None in Hlast; discriminate].
  exists first, final. split; [reflexivity|]. split; [reflexivity|].
  unfold for_loop. replace (Z.to_nat (threshold - 2 - 0)) with 0%nat by lia.
  reflexivity.
Qed.

(** ** The sliding window: batches, capacity and the timer *)

Section WindowComposition.

Implicit Types (st : Stream.state) (prev a b : list PointRef)
  (newPoint : PointRef + list PointRef).

(** With a capacity of at least one the window is the suffix of the
    concatenation that fits. *)
Lemma append_window_drop (maxDataPoints : Z) newPoint prev :
  1 <= maxDataPoints ->
  Stream.append_window maxDataPoints newPoint prev
  = drop (length (prev ++ Stream.points_of newPoint) - Z.to_nat maxDataPoints)
      (prev ++ Stream.points_of newPoint).
Proof.
  intros Hcap. unfold Stream.append_window.
  set (updated := prev ++ Stream.points_of newPoint).
  destruct (Z.ltb_spec maxDataPoints (len updated)) as [Hlt|Hge].
  - apply slice_from_last; lia.
  - unfold len in Hge.
    replace (length updated - Z.to_nat maxDataPoints)%nat with 0%nat by lia.
    reflexivity.
Qed.

(** With capacity zero [slice(-0)] is [slice(0)]: nothing is dropped. *)
Lemma append_window_zero newPoint prev :
  Stream.append_window 0 newPoint prev = prev ++ Stream.points_of newPoint.
Proof.
  unfold Stream.append_window, Stream.slice_from.
  destruct (0 <? len _); [|reflexivity].
  change (- 0 <? 0) with false. cbn iota.
  rewrite Z.min_l by (unfold len; lia). reflexivity.
Qed.

(** X10.  For a capacity that is not negative, two appends in a row leave
    the buffer as one append of the two batches together does: streaming
    points one by one and appending them as a batch agree. *)
Theorem addDataPoint_batches (maxDataPoints : Z) newPoint newPoint' st :
  0 <= maxDataPoints ->
  Stream.addDataPoint maxDataPoints newPoint'
    (Stream.addDataPoint maxDataPoints newPoint st)
  = Stream.addDataPoint maxDataPoints
      (inr (Stream.points_of newPoint ++ Stream.points_of newPoint')) st.
Proof.
  intros Hcap. unfold Stream.addDataPoint. cbn [Stream.data Stream.isStreaming].
  f_equal.
  destruct (Z.eq_dec maxDataPoints 0) as [->|Hnz].
  - rewrite !append_window_zero. cbn [Stream.points_of].
    rewrite app_assoc. reflexivity.
  - rewrite !append_window_drop by lia. cbn [Stream.points_of].
    set (u := Stream.data st ++ Stream.points_of newPoint).
    set (b := Stream.points_of newPoint').
    set (m := Z.to_nat maxDataPoints).
    rewrite (app_assoc (Stream.data st)). fold u.
    set (k := (length u - m)%nat).
    replace (length (u ++ b) - m)%nat
      with (k + (length (drop k u ++ b) - m))%nat.
    + rewrite <- drop_drop. f_equal.
      rewrite drop_app_le by (subst k; lia). reflexivity.
    + rewrite !length_app, length_drop. subst k. lia.
Qed.

(** X11.  After [replaceData] has put more points into the buffer than the
    capacity allows, the next append of at least one point cuts the buffer
    back to exactly [maxDataPoints] points, the newest of them last. *)
Theorem addDataPoint_after_replaceData (maxDataPoints : Z)
    (newData : list PointRef) newPoint st :
  1 <= maxDataPoints -> maxDataPoints <= len newData ->
  Stream.points_of newPoint <> [] ->
  let st' := Stream.addDataPoint maxDataPoints newPoint
               (Stream.replaceData newData st) in
  len (Stream.data st') = maxDataPoints /\
  last (Stream.data st') = last (Stream.points_of newPoint).
Proof.
  intros Hcap Hlong Hne st'. subst st'.
  cbn [Stream.addDataPoint Stream.replaceData Stream.data].
  rewrite append_window_drop by lia.
  set (points := Stream.points_of newPoint) in *.
  assert (Hlen : (0 < length points)%nat).
  { destruct points; [contradiction | cbn; lia]. }
  unfold len in *. split.
  - rewrite length_drop, length_app. lia.
  - destruct (last points) as [p|] eqn:Hlast;
      [|apply last_None in Hlast; contradiction].
    apply last_Some in Hlast as [init Hinit]. rewrite Hinit in *.
    rewrite app_assoc. rewrite length_app in *. cbn [length] in *.
    rewrite drop_app_le by (rewrite length_app; lia).
    apply last_snoc.
Qed.

(** X12.  With [maxDataPoints = 0] an append evicts nothing: [slice(-0)]
    is the whole array, and the buffer grows without bound. *)
Theorem addDataPoint_capacity_zero newPoint st :
  Stream.data (Stream.addDataPoint 0 newPoint st)
  = Stream.data st ++ Stream.points_of newPoint /\
  (Stream.points_of newPoint <> [] ->
   0 < len (Stream.data (Stream.addDataPoint 0 newPoint st))).
Proof.
  cbn [Stream.addDataPoint Stream.data]. rewrite append_window_zero.
  split; [reflexivity|]. intros Hne. unfold len. rewrite length_app.
  destruct (Stream.points_of newPoint); [contradiction | cbn [length]; lia].
Qed.

End WindowComposition.

(** ** The data generators and the timer of the stream *)

Lemma generateValue_clamped (sin : Q -> Q) (seed r : Q) :
  (0 <= generateValue sin seed r <= 100)%Q.
Proof.
  unfold generateValue. split.
  - apply Q.le_max_l.
  - apply Q.max_lub; [discriminate | apply Q.le_min_l].
Qed.

Lemma pick_category_defined (r : Q) :
  (0 <= r < 1)%Q -> exists c, pick_category r = Some c /\ In c CATEGORIES.
Proof.
  intros [Hlo Hhi]. unfold pick_category.
  change (inject_Z (Z.of_nat (length CATEGORIES))) with 4%Q.
  assert (H0 : 0 <= Qfloor (r * 4)).
  { rewrite <- (Qfloor_Z 0). apply Qfloor_resp_le.
    change (inject_Z 0) with 0%Q. lra. }
  assert (H4 : Qfloor (r * 4) < 4).
  { rewrite Zlt_Qlt. eapply Qle_lt_trans; [apply Qfloor_le|].
    change (inject_Z 4) with 4%Q. lra. }
  destruct (Z.ltb_spec (Qfloor (r * 4)) 0) as [?|_]; [lia|].
  assert (Hi : (Z.to_nat (Qfloor (r * 4)) < 4)%nat) by lia.
  destruct (Z.to_nat (Qfloor (r * 4))) as [|[|[|[|n]]]]; try lia;
    eexists; (split; [reflexivity|]); cbn; tauto.
Qed.

Lemma new_point_defined (sin : Q -> Q) (t seed r0 r1 : Q) :
  (0 <= r1 < 1)%Q ->
  exists p, new_point sin t seed r0 r1 = Some p /\
    timestamp p = t /\ (0 <= value p <= 100)%Q /\ In (category p) CATEGORIES.
Proof.
  intros Hr. unfold new_point.
  destruct (pick_category_defined r1 Hr) as (c & -> & Hc).
  cbn [mbind option_bind]. eexists. split; [reflexivity|].
  cbn [timestamp value category].
  split; [reflexivity|]. split; [apply generateValue_clamped | exact Hc].
Qed.

Section Generators.

Variable Math_sin : Q -> Q.
Variable random : nat -> Q.
Hypothesis random_unit : forall n, (0 <= random n < 1)%Q.

Lemma generateBatch_loop_shape (rounds i : nat) (currentTimestamp : Q) :
  exists batch,
    generateBatch_loop Math_sin random rounds i currentTimestamp = Some batch /\
    length batch = rounds /\
    forall (k : nat) (p : DataPoint), batch !! k = Some p ->
      timestamp p == currentTimestamp + 100 * inject_Z (Z.of_nat k + 1) /\
      (0 <= value p <= 100)%Q /\ In (category p) CATEGORIES.
Proof using random_unit.
  revert i currentTimestamp.
  induction rounds as [|n IH]; intros i currentTimestamp;
    cbn [generateBatch_loop].
  - exists []. split; [reflexivity|]. split; [reflexivity|].
    intros k p Hk. discriminate Hk.
  - destruct (new_point_defined Math_sin (currentTimestamp + 100)%Q
                (currentTimestamp + 100)%Q (random (2 * i)%nat)
                (random (2 * i + 1)%nat) (random_unit _))
      as (p0 & -> & Ht & Hv & Hc).
    cbn [mbind option_bind].
    destruct (IH (Datatypes.S i) (currentTimestamp + 100)%Q)
      as (batch & -> & Hlen & Hall).
    cbn [mbind option_bind]. exists (p0 :: batch).
    split; [reflexivity|]. split; [cbn [length]; lia|].
    intros [|k] p Hk.
    + injection Hk as <-. rewrite Ht. split; [|tauto].
      change (inject_Z (Z.of_nat 0 + 1)) with 1%Q. ring.
    + destruct (Hall k p Hk) as (Hkt & Hkv & Hkc).
      split; [|tauto]. rewrite Hkt.
      rewrite Nat2Z.inj_succ, <- Z.add_1_r, !inject_Z_plus.
      change (inject_Z 1) with 1%Q. ring.
Qed.

(** X13.  [generateBatch(count, lastTimestamp)] returns [count] points
    (none for a negative count); the point at index [k] has the timestamp
    [lastTimestamp + 100 * (k + 1)], a value between 0 and 100, and one of
    the four categories. *)
Theorem generateBatch_shape (count : Z) (lastTimestamp : Q) :
  exists batch,
    generateBatch Math_sin random count lastTimestamp = Some batch /\
    Z.of_nat (length batch) = Z.max 0 count /\
    forall (k : nat) (p : DataPoint), batch !! k = Some p ->
      timestamp p == lastTimestamp + 100 * inject_Z (Z.of_nat k + 1) /\
      (0 <= value p <= 100)%Q /\ In (category p) CATEGORIES.
Proof using random_unit.
  unfold generateBatch.
  destruct (generateBatch_loop_shape (Z.to_nat count) 0 lastTimestamp)
    as (batch & Hrun & Hlen & Hall).
  exists batch. split; [exact Hrun|]. split; [lia | exact Hall].
Qed.

Lemma generateInitialDataset_loop_shape (now : Q) (count : Z) (rounds i : nat) :
  exists points,
    generateInitialDataset_loop Math_sin random now count rounds i
    = Some points /\
    length points = rounds /\
    forall (k : nat) (p : DataPoint), points !! k = Some p ->
      timestamp p = (now - inject_Z (count - Z.of_nat (i + k)) * 100)%Q /\
      (0 <= value p <= 100)%Q /\ In (category p) CATEGORIES.
Proof using random_unit.
  revert i. induction rounds as [|n IH]; intros i;
    cbn [generateInitialDataset_loop].
  - exists []. split; [reflexivity|]. split; [reflexivity|].
    intros k p Hk. discriminate Hk.
  - destruct (new_point_defined Math_sin
                (now - inject_Z (count - Z.of_nat i) * 100)%Q
                (inject_Z (Z.of_nat i)) (random (2 * i)%nat)
                (random (2 * i + 1)%nat) (random_unit _))
      as (p0 & -> & Ht & Hv & Hc).
    cbn [mbind option_bind].
    destruct (IH (Datatypes.S i)) as (points & -> & Hlen & Hall).
    cbn [mbind option_bind]. exists (p0 :: points).
    split; [reflexivity|]. split; [cbn [length]; lia|].
    intros [|k] p Hk.
    + injection Hk as <-. rewrite Ht, Nat.add_0_r. tauto.
    + destruct (Hall k p Hk) as (Hkt & Hkv & Hkc).
      split; [|tauto]. rewrite Hkt. do 4 f_equal. lia.
Qed.

(** X14.  [generateInitialDataset(count)] returns [count] points; the point
    at index [k] has the timestamp [now - (count - k) * 100], so the
    timestamps go up in steps of 100 and all lie before [now]; every value is
    between 0 and 100 and every category one of the four. *)
Theorem generateInitialDataset_shape (now : Q) (count : Z) :
  exists points,
    generateInitialDataset Math_sin random now count = Some points /\
    Z.of_nat (length points) = Z.max 0 count /\
    forall (k : nat) (p : DataPoint), points !! k = Some p ->
      timestamp p == now - inject_Z (count - Z.of_nat k) * 100 /\
      (timestamp p < now)%Q /\
      (0 <= value p <= 100)%Q /\ In (category p) CATEGORIES.
Proof using random_unit.
  unfold generateInitialDataset.
  destruct (generateInitialDataset_loop_shape now count (Z.to_nat count) 0)
    as (points & Hrun & Hlen & Hall).
  exists points. split; [exact Hrun|]. split; [lia|].
  intros k p Hk. destruct (Hall k p Hk) as (Ht & Hv & Hc).
  cbn [Nat.add] in Ht. apply lookup_lt_Some in Hk.
  split; [rewrite Ht; reflexivity|]. split; [|tauto].
  rewrite Ht.
  assert (Hpos : (0 < inject_Z (count - Z.of_nat k))%Q).
  { change 0%Q with (inject_Z 0). rewrite <- Zlt_Qlt. lia. }
  lra.
Qed.

End Generators.

Section StreamTimer.

Variable Math_sin : Q -> Q.

Local Abbreviation timestamps := (map (fun p : PointRef => timestamp p)).

Lemma StronglySorted_snoc (l : list Q) (y : Q) :
  StronglySorted Qlt l -> Forall (fun x => (x < y)%Q) l ->
  StronglySorted Qlt (l ++ [y]).
Proof.
  induction 1 as [|x l Hl IH Hx]; intros Hy; cbn [app].
  - repeat constructor.
  - apply Forall_cons in Hy as [Hxy Hy].
    constructor; [apply IH, Hy|].
    apply Forall_app. split; [exact Hx | repeat constructor; exact Hxy].
Qed.

Lemma StronglySorted_drop (k : nat) (l : list Q) :
  StronglySorted Qlt l -> StronglySorted Qlt (drop k l).
Proof.
  revert l. induction k as [|k IH]; intros l Hl; [exact Hl|].
  destruct l as [|x l]; [exact Hl|]. cbn [drop].
  apply IH. apply StronglySorted_inv in Hl. tauto.
Qed.

Lemma sorted_below_last (l : list Q) (z : Q) :
  StronglySorted Qlt l -> last l = Some z ->
  Forall (fun x => (x <= z)%Q) l.
Proof.
  induction 1 as [|x l Hl IH Hx]; intros Hlast; [constructor|].
  destruct l as [|y l'].
  - injection Hlast as ->. repeat constructor. apply Qle_refl.
  - change (last (x :: y :: l')) with (last (y :: l')) in Hlast.
    specialize (IH Hlast). constructor; [|exact IH].
    rewrite Forall_forall in Hx, IH.
    assert (Hz : z ∈ y :: l').
    { apply list_elem_of_In. rewrite last_lookup in Hlast.
      apply list_elem_of_In. eapply list_elem_of_lookup_2, Hlast. }
    apply Qlt_le_weak, Hx, Hz.
Qed.

Lemma last_drop_lt (k : nat) (l : list PointRef) :
  (k < length l)%nat -> last (drop k l) = last l.
Proof.
  intros Hk. rewrite !last_lookup, lookup_drop, length_drop. f_equal. lia.
Qed.

(** The window after an append is the concatenation without some of its
    first elements. *)
Lemma append_window_is_drop (maxDataPoints : Z)
    (newPoint : PointRef + list PointRef) (prev : list PointRef) :
  exists k,
    Stream.append_window maxDataPoints newPoint prev
    = drop k (prev ++ Stream.points_of newPoint) /\
    (0 <= maxDataPoints -> Stream.points_of newPoint <> [] ->
     (k < length (prev ++ Stream.points_of newPoint))%nat).
Proof.
  unfold Stream.append_window, Stream.slice_from.
  set (updated := prev ++ Stream.points_of newPoint).
  destruct (Z.ltb_spec maxDataPoints (len updated)) as [Hlt|Hge].
  - eexists. split; [reflexivity|]. intros Hcap _. unfold len in *.
    destruct (Z.ltb_spec (- maxDataPoints) 0); lia.
  - exists 0%nat. split; [reflexivity|]. intros _ Hne.
    subst updated. rewrite length_app.
    destruct (Stream.points_of newPoint); [contradiction | cbn [length]; lia].
Qed.

(** X15.  A tick of the stream timer whose closure is up to date (the data
    it was rendered with ends with the point that ends the buffer) keeps the
    timestamps of the buffer strictly ascending: when they ascend before the
    tick and the last one is a whole number of milliseconds other than zero,
    the tick returns, the timestamps still ascend, and (for a capacity that
    is not negative) the last point of the buffer is the new one, 100 ms
    after the point that was last before, with a value between 0 and 100. *)
Theorem tick_keeps_ascending (r0 r1 now : Q) (fresh : positive)
    (maxDataPoints : Z) (rendered : list PointRef) (st : Stream.state) :
  (0 <= r1 < 1)%Q -> 0 <= maxDataPoints ->
  last rendered = last (Stream.data st) ->
  StronglySorted Qlt (timestamps (Stream.data st)) ->
  (forall p : PointRef, last (Stream.data st) = Some p ->
     exists t : Z, whole (timestamp p) t /\ t <> 0) ->
  exists st' newPoint,
    Tick.tick Math_sin r0 r1 now fresh maxDataPoints rendered st = Some st' /\
    StronglySorted Qlt (timestamps (Stream.data st')) /\
    last (Stream.data st') = Some newPoint /\
    addr newPoint = fresh /\
    (0 <= value newPoint <= 100)%Q /\
    (forall p : PointRef, last (Stream.data st) = Some p ->
       timestamp newPoint = (timestamp p + 100)%Q) /\
    (Stream.data st = [] -> timestamp newPoint = (now + 100)%Q).
Proof.
  intros Hr Hcap Hclosure Hsorted Hwhole.
  assert (Hnonzero : forall p : PointRef,
            last (Stream.data st) = Some p -> ~ timestamp p == 0).
  { intros p Hp HZ. destruct (Hwhole p Hp) as (t & [Ht _] & Hnz).
    rewrite Ht in HZ. apply Hnz.
    unfold Qeq in HZ. cbn [inject_Z Qnum Qden] in HZ. lia. }
  unfold Tick.tick, generateNewDataPoint.
  set (lastT := Tick.lastTimestamp rendered now).
  destruct (new_point_defined Math_sin (lastT + 100)%Q (lastT + 100)%Q r0 r1 Hr)
    as (np & -> & Ht & Hv & _).
  cbn [mbind option_bind].
  set (ref := {| addr := fresh; target := np |}).
  eexists. exists ref. split; [reflexivity|].
  cbn [Stream.addDataPoint Stream.data].
  destruct (append_window_is_drop maxDataPoints (inl ref) (Stream.data st))
    as (k & -> & Hk).
  cbn [Stream.points_of] in *. specialize (Hk Hcap ltac:(discriminate)).
  assert (HlastT : (forall p : PointRef, last (Stream.data st) = Some p ->
                      lastT = timestamp p) /\
                   (Stream.data st = [] -> lastT = now)).
  { subst lastT. unfold Tick.lastTimestamp. rewrite Hclosure. split.
    - intros p Hp. rewrite Hp. specialize (Hnonzero p Hp).
      destruct (Qeq_bool (timestamp p) 0) eqn:E; [|reflexivity].
      apply Qeq_bool_iff in E. contradiction.
    - intros ->. reflexivity. }
  destruct HlastT as [HlastSome HlastNone].
  split; [|split; [|split; [reflexivity|split; [exact Hv|split]]]].
  - rewrite <- skipn_map. apply StronglySorted_drop.
    rewrite map_app. cbn [map]. apply StronglySorted_snoc; [exact Hsorted|].
    destruct (last (Stream.data st)) as [p|] eqn:Hlast.
    + pose proof (sorted_below_last (timestamps (Stream.data st)) (timestamp p)
                    Hsorted) as Hbelow.
      assert (Hl : last (timestamps (Stream.data st)) = Some (timestamp p)).
      { change (timestamps (Stream.data st))
          with ((fun p : PointRef => timestamp p) <$> Stream.data st).
        rewrite fmap_last, Hlast. reflexivity. }
      specialize (Hbelow Hl).
      eapply Forall_impl; [exact Hbelow|]. intros x Hx. cbn beta in *.
      subst ref. cbn [target]. rewrite Ht, (HlastSome p eq_refl). lra.
    + apply last_None in Hlast. rewrite Hlast. constructor.
  - rewrite last_drop_lt by exact Hk. apply last_snoc.
  - intros p Hp. subst ref. cbn [target]. rewrite Ht, (HlastSome p Hp).
    reflexivity.
  - intros Hnil. subst ref. cbn [target]. rewrite Ht, (HlastNone Hnil).
    reflexivity.
Qed.

(** X31.  A timer that fires twice before the component is rendered again
    reads the same last timestamp both times, from the data its closure
    holds: for a capacity of at least 2 the buffer then ends with two new
    points of the same timestamp, and its timestamps do not ascend
    strictly. *)
Theorem tick_twice_same_timestamp (r0 r1 r0' r1' now now' : Q)
    (fresh fresh' : positive) (maxDataPoints : Z)
    (rendered : list PointRef) (st : Stream.state) (p : PointRef) :
  (0 <= r1 < 1)%Q -> (0 <= r1' < 1)%Q -> 2 <= maxDataPoints ->
  last rendered = Some p -> ~ timestamp p == 0 ->
  exists st1 st2 front p1 p2,
    Tick.tick Math_sin r0 r1 now fresh maxDataPoints rendered st = Some st1 /\
    Tick.tick Math_sin r0' r1' now' fresh' maxDataPoints rendered st1
    = Some st2 /\
    Stream.data st2 = front ++ [p1; p2] /\
    addr p1 = fresh /\ addr p2 = fresh' /\
    timestamp p1 = (timestamp p + 100)%Q /\
    timestamp p2 = (timestamp p + 100)%Q /\
    ~ StronglySorted Qlt (timestamps (Stream.data st2)).
Proof.
  intros Hr Hr' Hcap Hlast Hnonzero.
  assert (HlastT : forall n : Q, Tick.lastTimestamp rendered n = timestamp p).
  { intros n. unfold Tick.lastTimestamp. rewrite Hlast.
    destruct (Qeq_bool (timestamp p) 0) eqn:E; [|reflexivity].
    apply Qeq_bool_iff in E. contradiction. }
  unfold Tick.tick, generateNewDataPoint. rewrite !HlastT.
  destruct (new_point_defined Math_sin (timestamp p + 100)%Q
              (timestamp p + 100)%Q r0 r1 Hr) as (np & -> & Ht & _).
  destruct (new_point_defined Math_sin (timestamp p + 100)%Q
              (timestamp p + 100)%Q r0' r1' Hr') as (np' & -> & Ht' & _).
  cbn [mbind option_bind Stream.addDataPoint Stream.data].
  set (p1 := {| addr := fresh; target := np |}).
  set (p2 := {| addr := fresh'; target := np' |}).
  assert (Hdata : exists front,
            Stream.append_window maxDataPoints (inl p2)
              (Stream.append_window maxDataPoints (inl p1) (Stream.data st))
            = front ++ [p1; p2]).
  { rewrite !append_window_drop by lia. cbn [Stream.points_of].
    set (prev := Stream.data st).
    set (k := (length (prev ++ [p1]) - Z.to_nat maxDataPoints)%nat).
    assert (Hk : (k <= length prev)%nat)
      by (subst k; rewrite length_app; cbn [length]; lia).
    rewrite (drop_app_le prev [p1] k Hk), <- app_assoc. cbn [app].
    set (kept := drop k prev).
    set (k' := (length (kept ++ [p1; p2]) - Z.to_nat maxDataPoints)%nat).
    assert (Hk' : (k' <= length kept)%nat)
      by (subst k'; rewrite length_app; cbn [length]; lia).
    rewrite (drop_app_le kept [p1; p2] k' Hk').
    exists (drop k' kept). reflexivity. }
  destruct Hdata as (front & Hfront).
  eexists _, _, front, p1, p2.
  split; [reflexivity|]. split; [reflexivity|].
  cbn [Stream.addDataPoint Stream.data]. rewrite Hfront.
  split; [reflexivity|].
  split; [reflexivity|]. split; [reflexivity|].
  split; [exact Ht|]. split; [exact Ht'|].
  rewrite map_app. cbn [map]. intros Hsorted.
  assert (Htail : StronglySorted Qlt [timestamp p1; timestamp p2]).
  { clear - Hsorted. induction (timestamps front) as [|x l IH];
      [exact Hsorted|]. apply IH. cbn [app] in Hsorted.
    apply StronglySorted_inv in Hsorted. tauto. }
  apply StronglySorted_inv in Htail as [_ Hlt].
  apply Forall_cons in Hlt as [Hlt _].
  subst p1 p2. cbn [target] in Hlt. rewrite Ht, Ht' in Hlt.
  exact (Qlt_irrefl _ Hlt).
Qed.

End StreamTimer.

(** ** Performance utilities and the monitor hook *)

Section Performance.

Implicit Types (m : PerformanceMetrics) (numbers : list Q).

Lemma Qle_bool_false (a b : Q) : Qle_bool a b = false -> (b < a)%Q.
Proof.
  intros H. apply Qnot_le_lt. intros Hle.
  apply Qle_bool_iff in Hle. congruence.
Qed.

(** Case analysis on the comparisons of numbers in the goal, one after the
    other, with the facts they give. *)
Ltac case_compare :=
  repeat match goal with
  | |- context [Qle_bool ?a ?b] =>
      let E := fresh "E" in
      destruct (Qle_bool a b) eqn:E;
      [apply Qle_bool_iff in E | apply Qle_bool_false in E];
      cbn [andb negb orb]
  end.

(** After at least a second, the rate of a count that is not negative is a
    whole number between 0 and the count. *)
Lemma calculateFPS_whole (frameCount : Z) (elapsedTime : Q) :
  0 <= frameCount -> (1000 <= elapsedTime)%Q ->
  exists n : Z,
    calculateFPS frameCount elapsedTime = inject_Z n /\ 0 <= n <= frameCount.
Proof.
  intros Hcount Htime. unfold calculateFPS, Math_round.
  destruct (Qeq_bool elapsedTime 0) eqn:E;
    [apply Qeq_bool_iff in E; lra|].
  set (rate := (inject_Z frameCount * 1000 / elapsedTime)%Q).
  exists (Qfloor (rate + (1 # 2))). split; [reflexivity|].
  assert (H0 : (0 <= inject_Z frameCount)%Q)
    by (change 0%Q with (inject_Z 0); rewrite <- Zle_Qle; lia).
  assert (Hlo : (0 <= rate)%Q)
    by (unfold rate; apply Qle_shift_div_l; lra).
  assert (Hhi : (rate <= inject_Z frameCount)%Q)
    by (unfold rate; apply Qle_shift_div_r; [lra | nra]).
  split.
  - rewrite <- (Qfloor_Z 0). apply Qfloor_resp_le.
    change (inject_Z 0) with 0%Q. lra.
  - assert (Hlt : Qfloor (rate + (1 # 2)) < frameCount + 1); [|lia].
    rewrite Zlt_Qlt, inject_Z_plus. change (inject_Z 1) with 1%Q.
    pose proof (Qfloor_le (rate + (1 # 2))). lra.
Qed.

(** X16.  [calculateFPS] is 0 when no time has passed, and the count itself
    when exactly 1000 ms have passed.  After at least a second, for a count
    that is not negative (and small enough for [frameCount * 1000] to be
    exact), it is a whole number between 0 and the count, and it does not go
    down when the count goes up. *)
Theorem calculateFPS_bounds (frameCount : Z) (elapsedTime : Q) :
  0 <= frameCount < 2 ^ 40 -> (1000 <= elapsedTime)%Q ->
  calculateFPS frameCount 0 = 0%Q /\
  calculateFPS frameCount 1000 = inject_Z frameCount /\
  (exists n : Z,
     calculateFPS frameCount elapsedTime = inject_Z n /\
     0 <= n <= frameCount) /\
  (forall frameCount' : Z,
     frameCount <= frameCount' < 2 ^ 40 ->
     (calculateFPS frameCount elapsedTime
      <= calculateFPS frameCount' elapsedTime)%Q).
Proof.
  intros [Hcount _] Htime. split; [reflexivity|]. split; [|split].
  - unfold calculateFPS, Math_round.
    change (Qeq_bool 1000 0) with false. cbn match. f_equal.
    rewrite (Qfloor_comp _ (inject_Z frameCount + (1 # 2))) by field.
    apply Z.le_antisymm.
    + assert (Hlt : Qfloor (inject_Z frameCount + (1 # 2)) < frameCount + 1);
        [|lia].
      rewrite Zlt_Qlt, inject_Z_plus. change (inject_Z 1) with 1%Q.
      pose proof (Qfloor_le (inject_Z frameCount + (1 # 2))). lra.
    + rewrite <- (Qfloor_Z frameCount) at 1. apply Qfloor_resp_le. lra.
  - apply calculateFPS_whole; assumption.
  - intros frameCount' [Hmore _]. unfold calculateFPS, Math_round.
    destruct (Qeq_bool elapsedTime 0); [apply Qle_refl|].
    rewrite <- Zle_Qle. apply Qfloor_resp_le.
    assert (Hc : (inject_Z frameCount <= inject_Z frameCount')%Q)
      by (rewrite <- Zle_Qle; exact Hmore).
    assert (Hrate : (inject_Z frameCount * 1000 / elapsedTime
                     <= inject_Z frameCount' * 1000 / elapsedTime)%Q).
    { unfold Qdiv. apply Qmult_le_compat_r; [lra|].
      apply Qinv_le_0_compat. lra. }
    lra.
Qed.

(** X18.  The performance grade is monotone: more frames per second and
    less render time never give a worse grade. *)
Theorem getPerformanceGrade_monotone m m' :
  (fps m <= fps m')%Q -> (renderTime m' <= renderTime m)%Q ->
  grade_rank (grade (getPerformanceGrade m))
  <= grade_rank (grade (getPerformanceGrade m')).
Proof.
  intros Hfps Hrender. unfold getPerformanceGrade, Qgeb, Qltb.
  case_compare; cbn [grade grade_rank]; first [lia | exfalso; lra].
Qed.

(** X19.  The grade is F exactly when there are fewer than 25 frames per
    second, whatever the render time; and the colour of the FPS figure
    agrees with the grade at both ends: green with grade A, red with
    grade F. *)
Theorem getPerformanceGrade_extremes m :
  (grade (getPerformanceGrade m) = GradeF <-> (fps m < 25)%Q) /\
  (grade (getPerformanceGrade m) = GradeA ->
   getFPSColor (fps m) = "text-green-400"%string) /\
  (grade (getPerformanceGrade m) = GradeF ->
   getFPSColor (fps m) = "text-red-400"%string).
Proof.
  unfold getPerformanceGrade, getFPSColor, Qgeb, Qltb.
  case_compare; cbn [grade];
    (split; [split; intros H; first [discriminate H | reflexivity | lra]|]);
    (split; intros H; first [discriminate H | reflexivity | exfalso; lra]).
Qed.

End Performance.

Section MonitorFrames.

Implicit Types (st : Monitor.state) (now memory renderTime : Q)
  (dataPoints : Z).

Lemma calculateFPS_nonneg (frameCount : Z) (elapsedTime : Q) :
  0 <= frameCount -> (0 <= elapsedTime)%Q ->
  (0 <= calculateFPS frameCount elapsedTime)%Q.
Proof.
  intros Hcount Htime. unfold calculateFPS, Math_round.
  destruct (Qeq_bool elapsedTime 0) eqn:E; [apply Qle_refl|].
  apply Qeq_bool_neq in E.
  change 0%Q with (inject_Z 0). rewrite <- Zle_Qle.
  rewrite <- (Qfloor_Z 0). apply Qfloor_resp_le.
  assert (Hrate : (0 <= inject_Z frameCount * 1000 / elapsedTime)%Q).
  { apply Qle_shift_div_l; [lra|].
    assert (H0 : (0 <= inject_Z frameCount)%Q)
      by (change 0%Q with (inject_Z 0); rewrite <- Zle_Qle; lia).
    lra. }
  change (inject_Z 0) with 0%Q. lra.
Qed.

(** The samples kept after a frame. *)
Lemma measureFrame_renderTimes now memory renderTime dataPoints st :
  Monitor.renderTimes (Monitor.measureFrame now memory renderTime dataPoints st)
  = let pushed := Monitor.renderTimes st ++ [renderTime] in
    if 60 <? Z.of_nat (length pushed) then drop 1 pushed else pushed.
Proof.
  unfold Monitor.measureFrame.
  destruct (Qgeb _ 1000); reflexivity.
Qed.

(** X20.  The hook keeps at most 60 render times: when it holds at most 60
    before a frame it holds at most 60 after it, namely the newest ones in
    their order, the render time of this frame last. *)
Theorem measureFrame_keeps_60 now memory renderTime dataPoints st :
  (length (Monitor.renderTimes st) <= 60)%nat ->
  let st' := Monitor.measureFrame now memory renderTime dataPoints st in
  (length (Monitor.renderTimes st') <= 60)%nat /\
  last (Monitor.renderTimes st') = Some renderTime /\
  Monitor.renderTimes st'
  = drop (length (Monitor.renderTimes st) + 1 - 60)
      (Monitor.renderTimes st ++ [renderTime]).
Proof.
  intros Hlen st'. subst st'. rewrite measureFrame_renderTimes. cbn zeta.
  set (old := Monitor.renderTimes st) in *.
  rewrite length_app. cbn [length].
  destruct (Z.ltb_spec 60 (Z.of_nat (length old + 1))) as [Hfull|Hroom].
  - assert (Hold : length old = 60%nat) by lia.
    replace (length old + 1 - 60)%nat with 1%nat by lia.
    split; [rewrite length_drop, length_app; cbn [length]; lia|].
    split; [|reflexivity].
    destruct old as [|x old']; [discriminate Hold|].
    cbn [app drop]. apply last_snoc.
  - replace (length old + 1 - 60)%nat with 0%nat by lia. cbn [drop].
    split; [rewrite length_app; cbn [length]; lia|].
    split; [apply last_snoc | reflexivity].
Qed.

(** X21.  The hook reports at most once per frame and at least once per
    second.  A frame either only counts (the metrics and the time of the
    last report stay, the frame count goes up by one) or reports: the frame
    count goes back to 0, the time of the report becomes [now], the data
    points and the memory usage are the ones given, the render time is the
    average of the render times on hold, and the frame rate is a whole
    number between 0 and the number of frames counted.  When at least
    1000 ms have passed since the last report, the frame reports. *)
Theorem measureFrame_reports now memory (frameTime : Q) (points : Z) st :
  let st' := Monitor.measureFrame now memory frameTime points st in
  let counted :=
    Monitor.metrics st' = Monitor.metrics st /\
    Monitor.frameCount st' = Monitor.frameCount st + 1 /\
    Monitor.lastTime st' = Monitor.lastTime st in
  let reported :=
    Monitor.frameCount st' = 0 /\
    Monitor.lastTime st' = now /\
    dataPoints (Monitor.metrics st') = points /\
    memoryUsage (Monitor.metrics st') = memory /\
    renderTime (Monitor.metrics st') = average (Monitor.renderTimes st') /\
    (0 <= Monitor.frameCount st < 2 ^ 40 ->
     exists n : Z,
       fps (Monitor.metrics st') = inject_Z n /\
       0 <= n <= Monitor.frameCount st + 1) in
  (counted \/ reported) /\
  ((1000 <= now - Monitor.lastTime st)%Q -> reported).
Proof.
  intros st' counted reported.
  assert (Hcases : (counted /\ (now - Monitor.lastTime st < 1000)%Q)
                   \/ reported).
  { subst counted reported st'. unfold Monitor.measureFrame, Qgeb.
    destruct (Qle_bool 1000 (now - Monitor.lastTime st)) eqn:E.
    - apply Qle_bool_iff in E. right.
      cbn [Monitor.frameCount Monitor.lastTime Monitor.metrics
           Monitor.renderTimes dataPoints memoryUsage fps renderTime].
      do 5 (split; [reflexivity|]).
      intros [Hcount _]. apply calculateFPS_whole; [lia | exact E].
    - apply Qle_bool_false in E. left.
      split; [|exact E]. split; [reflexivity|]. split; reflexivity. }
  split.
  - destruct Hcases as [[Hcounted _]|Hreported]; [left | right]; assumption.
  - intros Hsecond. destruct Hcases as [[_ Hless]|Hreported];
      [exfalso; lra | exact Hreported].
Qed.

End MonitorFrames.

(** ** The filters of the dashboard *)

Section Filters.

Implicit Types (data : list PointRef) (timeRange : TimeRange).

Lemma filter_sublist_imp {A : Type} (f g : A -> bool) (l : list A) :
  (forall x, f x = true -> g x = true) ->
  List.filter f l `sublist_of` List.filter g l.
Proof.
  intros Himp. induction l as [|x l IH]; cbn [List.filter]; [constructor|].
  destruct (f x) eqn:Hf.
  - rewrite (Himp x Hf). apply sublist_skip, IH.
  - destruct (g x); [apply sublist_cons, IH | exact IH].
Qed.

Lemma filter_sublist {A : Type} (f : A -> bool) (l : list A) :
  List.filter f l `sublist_of` l.
Proof.
  induction l as [|x l IH]; cbn [List.filter]; [constructor|].
  destruct (f x); [apply sublist_skip, IH | apply sublist_cons, IH].
Qed.

Lemma Qgeb_le (a b : Q) : Qgeb a b = true <-> (b <= a)%Q.
Proof. unfold Qgeb. apply Qle_bool_iff. Qed.

(** X22.  Narrowing the time range never adds points: for the same data,
    category and clock, what the dashboard shows for the last minute is a
    sublist of what it shows for the last five minutes, that of what it shows
    for the last hour, that of what it shows for all data, and that of the
    buffer; and every point shown for a range is no older than the range. *)
Theorem filteredData_nested data (categoryFilter : string) (now : Q) :
  let shown timeRange := filteredData data categoryFilter timeRange now in
  shown Range1min `sublist_of` shown Range5min /\
  shown Range5min `sublist_of` shown Range1hour /\
  shown Range1hour `sublist_of` shown RangeAll /\
  shown RangeAll `sublist_of` data /\
  forall timeRange range (p : PointRef),
    range_ms timeRange = Some range -> In p (shown timeRange) ->
    (now - range <= timestamp p)%Q /\
    (categoryFilter <> "all"%string -> category p = categoryFilter).
Proof.
  intros shown. subst shown. unfold filteredData. cbn [range_ms].
  set (byCategory :=
         if String.eqb categoryFilter "all" then data
         else List.filter
                (fun d : PointRef => String.eqb (category d) categoryFilter)
                data).
  assert (Hcat : byCategory `sublist_of` data).
  { subst byCategory. destruct (String.eqb _ _); [reflexivity|].
    apply filter_sublist. }
  split; [|split; [|split; [|split; [exact Hcat|]]]].
  - apply filter_sublist_imp. intros x Hx.
    apply Qgeb_le in Hx. apply Qgeb_le. lra.
  - apply filter_sublist_imp. intros x Hx.
    apply Qgeb_le in Hx. apply Qgeb_le. lra.
  - apply filter_sublist.
  - intros timeRange range p Hrange Hin. rewrite Hrange in Hin.
    apply filter_In in Hin as [Hin Hcut]. apply Qgeb_le in Hcut.
    split; [exact Hcut|]. intros Hnot. subst byCategory.
    destruct (String.eqb_spec categoryFilter "all") as [?|_]; [contradiction|].
    apply filter_In in Hin as [_ Heq]. apply String.eqb_eq, Heq.
Qed.

End Filters.

(** ** Sums per category *)

Section Categories.

Implicit Types (data : list PointRef) (acc : gmap string Q) (c : string).

Local Abbreviation add_category :=
  (fun (acc : gmap string Q) (point : PointRef) =>
     <[category point := (default 0 (acc !! category point)
                          + value point)%Q]> acc).

Lemma reduce_category acc data c :
  let result := foldl add_category acc data !! c in
  (of_category c data = [] -> result = acc !! c) /\
  (of_category c data <> [] ->
   exists s, result = Some s /\
     s == default 0%Q (acc !! c)
          + Qsum (map (fun p : PointRef => value p) (of_category c data))).
Proof.
  revert acc. induction data as [|p rest IH]; intros acc.
  - cbn. split; [reflexivity | contradiction].
  - cbn [foldl]. specialize (IH (add_category acc p)). cbn zeta in IH |- *.
    destruct IH as [IHnone IHsome].
    unfold of_category in *. cbn [List.filter].
    destruct (String.eqb_spec (category p) c) as [Heq|Hne].
    + subst c. rewrite lookup_insert_eq in IHnone, IHsome.
      cbn [default] in IHsome.
      split; [discriminate|]. intros _.
      destruct (List.filter _ rest) as [|q points] eqn:Hpoints.
      * exists (default 0 (acc !! category p) + value p)%Q.
        split; [apply IHnone; reflexivity|].
        cbn [map Qsum foldr]. rewrite Qplus_0_r. reflexivity.
      * destruct IHsome as (s & Hs & Hsum); [discriminate|].
        exists s. split; [exact Hs|]. rewrite Hsum.
        cbn [map Qsum foldr]. symmetry. apply Qplus_assoc.
    + rewrite lookup_insert_ne in IHnone, IHsome by exact Hne.
      split; assumption.
Qed.

(** X23.  For categories that are not names every object inherits,
    [aggregateByCategory] maps each category that occurs in the data to the
    sum of the values of its points, and has no entry for a category that
    does not occur. *)
Theorem aggregateByCategory_sums data :
  Forall (fun p : PointRef => plain_category (category p)) data ->
  forall c,
    (of_category c data = [] -> aggregateByCategory data !! c = None) /\
    (of_category c data <> [] ->
     exists s, aggregateByCategory data !! c = Some s /\
       s == Qsum (map (fun p : PointRef => value p) (of_category c data))).
Proof.
  intros _ c. unfold aggregateByCategory.
  destruct (reduce_category ∅ data c) as [Hnone Hsome]. cbn zeta in *.
  rewrite lookup_empty in *. split; [exact Hnone|].
  intros Hne. destruct (Hsome Hne) as (s & Hs & Hsum).
  exists s. split; [exact Hs|]. rewrite Hsum. cbn [default].
  apply Qplus_0_l.
Qed.

End Categories.

(** ** Time windows: where a point falls, and how many windows there are *)

Section WindowBounds.

Implicit Types (data : list PointRef) (windowMs : Q).

(** X24.  For a timestamp [t] and a window length [w > 0] that are whole
    numbers of milliseconds, the window of the point is [(t / w) * w] with
    the floored division of the integers: it starts at or before the
    timestamp of the point and less than [windowMs] before it. *)
Theorem windowKey_encloses windowMs (w : Z) (p : DataPoint) (t : Z) :
  0 < w -> whole windowMs w -> whole (timestamp p) t ->
  windowKey windowMs p == inject_Z (t / w * w) /\
  t / w * w <= t < t / w * w + w /\
  (windowKey windowMs p <= timestamp p < windowKey windowMs p + windowMs)%Q.
Proof.
  intros Hw [Hwindow _] [Ht _].
  destruct (windowKey_whole windowMs w p t Hw Hwindow Ht) as [Hkey Hz].
  split; [exact Hkey|]. split; [exact Hz|].
  rewrite Hkey, Ht, Hwindow, <- inject_Z_plus, <- Zle_Qle, <- Zlt_Qlt.
  exact Hz.
Qed.

Lemma first_occurrences_length (keys : list Q) :
  (length (first_occurrences keys) <= length keys)%nat /\
  (keys <> [] -> (1 <= length (first_occurrences keys))%nat).
Proof.
  induction keys as [|k rest [IH _]]; cbn [first_occurrences length].
  - split; [lia | contradiction].
  - pose proof (filter_length_le
                  (fun k' => negb (Qeq_bool k k')) (first_occurrences rest)).
    split; [|intros _]; lia.
Qed.

(** X25.  Time-window aggregation of non-empty data gives at least one
    point and never more points than it was given. *)
Theorem aggregateByTimeWindow_length data windowMs :
  data <> [] ->
  (1 <= length (aggregateByTimeWindow data windowMs) <= length data)%nat.
Proof.
  intros Hne.
  pose proof (aggregateByTimeWindow_keys windowMs data) as Hkeys.
  apply (f_equal length) in Hkeys. rewrite length_map in Hkeys.
  rewrite Hkeys.
  destruct (first_occurrences_length
              (map (fun p : PointRef => windowKey windowMs p) data))
    as [Hle Hge].
  rewrite length_map in Hle. split; [|exact Hle].
  apply Hge. destruct data; [contradiction | discriminate].
Qed.

End WindowBounds.

(** ** Drawing: the line and the grid stay inside the plot area *)

Section Drawing.

Implicit Types (data sampledData : list PointRef) (width height padding : Q).

Lemma trace_line_lookup sampledData (scales : ScaleFactors)
    width height padding (i : nat) (c : command) :
  trace_line sampledData scales width height padding !! i = Some c ->
  exists point : PointRef,
    sampledData !! i = Some point /\
    let px := dataToCanvas point scales width height padding in
    c = if (i =? 0)%nat then MoveTo (Pixel.x px) (Pixel.y px)
        else LineTo (Pixel.x px) (Pixel.y px).
Proof.
  unfold trace_line. rewrite list_lookup_imap.
  destruct (sampledData !! i) as [point|]; [|discriminate].
  cbn. intros [= <-]. exists point. split; reflexivity.
Qed.

(** X26.  The path of the line chart, for [maxPoints >= 0] and a canvas
    whose width, height and padding are whole numbers of pixels, with
    [2 * padding] at most the width and the height: it is drawn, it has one
    command per sampled point and so at most one per point of the data, it
    starts with a [moveTo] and goes on with [lineTo]s, and every command
    goes to a place inside the plot area. *)
Theorem line_chart_path_in_plot data width height padding (W H P : Z)
    (maxPoints : Z) :
  0 <= maxPoints ->
  whole width W -> whole height H -> whole padding P ->
  2 * P <= W -> 2 * P <= H ->
  exists path,
    line_chart_path data width height padding maxPoints = Some path /\
    (length path <= length data)%nat /\
    (data <> [] -> exists x y, path !! 0%nat = Some (MoveTo x y)) /\
    (forall i c, path !! Datatypes.S i = Some c -> exists x y, c = LineTo x y) /\
    Forall (fun c => exists xy, command_target c = Some xy /\
                                in_plot width height padding xy) path.
Proof.
  intros Hmax HW HH HP Hroomw Hroomh.
  pose proof (whole_room width padding W P HW HP Hroomw) as Hw.
  pose proof (whole_room height padding H P HH HP Hroomh) as Hh.
  unfold line_chart_path.
  destruct data as [|d rest] eqn:Hdata.
  { exists []. split; [reflexivity|]. split; [reflexivity|].
    split; [contradiction|]. split; [discriminate | constructor]. }
  rewrite <- Hdata in *.
  destruct (downsampleSimple_shape data maxPoints Hmax)
    as (sampled & -> & Hsub & Hhead & _).
  cbn [mbind option_bind]. eexists. split; [reflexivity|].
  split; [|split; [|split]].
  - unfold trace_line. rewrite length_imap. apply sublist_length, Hsub.
  - intros _. rewrite Hdata in Hhead. cbn [head] in Hhead.
    destruct sampled as [|s0 sampled]; [discriminate Hhead|].
    cbn. eauto.
  - intros i c Hc. apply trace_line_lookup in Hc as (point & _ & ->).
    cbn. eauto.
  - apply Forall_lookup. intros i c Hc.
    apply trace_line_lookup in Hc as (point & Hpoint & ->). cbn zeta.
    assert (Hin : In point data).
    { apply list_elem_of_In. eapply sublist_subseteq; [exact Hsub|].
      eapply list_elem_of_lookup_2, Hpoint. }
    pose proof (point_in_plot data point width height padding Hin Hw Hh)
      as Hplot. cbn zeta in Hplot.
    eexists. split; [|exact Hplot].
    destruct (i =? 0)%nat; reflexivity.
Qed.

Lemma flat_map_length_4 {A B : Type} (f : A -> list B) (l : list A) :
  (forall x, length (f x) = 4%nat) ->
  length (flat_map f l) = (4 * length l)%nat.
Proof.
  intros Hf. induction l as [|x l IH]; [reflexivity|].
  cbn [flat_map]. rewrite length_app, Hf, IH. cbn [length]. lia.
Qed.

Lemma grid_position (size : Q) (divisions i : Z) :
  1 <= divisions -> 0 <= i <= divisions -> (0 <= size)%Q ->
  (0 <= size / inject_Z divisions * inject_Z i <= size)%Q.
Proof.
  intros Hd Hi Hsize.
  assert (Hdq : (0 < inject_Z divisions)%Q)
    by (change 0%Q with (inject_Z 0); rewrite <- Zlt_Qlt; lia).
  assert (Hiq : (0 <= inject_Z i <= inject_Z divisions)%Q)
    by (change 0%Q with (inject_Z 0); rewrite <- !Zle_Qle; lia).
  assert (Hstep : (0 <= size / inject_Z divisions)%Q)
    by (apply Qle_shift_div_l; lra).
  assert (Hfull : size / inject_Z divisions * inject_Z divisions == size)
    by (field; lra).
  set (s := (size / inject_Z divisions)%Q) in *.
  split; nra.
Qed.

(** X27.  For at least one division, [drawGrid] draws [divisions + 1]
    horizontal and as many vertical lines (four calls each, after the two
    that set the pen).  On a canvas whose width, height and padding are whole
    numbers of pixels, with [2 * padding] at most the width and the height
    and a plot area that [divisions] divides both ways (the lines then stand
    on whole pixels), every line starts and ends inside the plot area. *)
Theorem drawGrid_in_plot width height padding (W H P : Z) (divisions : Z)
    (color : string) :
  1 <= divisions ->
  whole width W -> whole height H -> whole padding P ->
  2 * P <= W -> 2 * P <= H ->
  (W - 2 * P) mod divisions = 0 -> (H - 2 * P) mod divisions = 0 ->
  let calls := drawGrid width height padding divisions color in
  Z.of_nat (length calls) = 2 + 8 * (divisions + 1) /\
  Z.of_nat (length (List.filter
                      (fun c => match c with Stroke => true | _ => false end)
                      calls)) = 2 * (divisions + 1) /\
  Forall (fun c => forall xy, command_target c = Some xy ->
                              in_plot width height padding xy) calls.
Proof.
  intros Hd HW HH HP Hroomw Hroomh _ _ calls.
  pose proof (whole_room width padding W P HW HP Hroomw) as Hw.
  pose proof (whole_room height padding H P HH HP Hroomh) as Hh.
  subst calls. unfold drawGrid. cbn zeta.
  set (horizontal := fun i : Z => _).
  set (vertical := fun i : Z => _).
  split; [|split].
  - rewrite !length_app.
    rewrite !flat_map_length_4, length_seqZ by (intros; reflexivity).
    cbn [length]. lia.
  - rewrite !List.filter_app. cbn [List.filter app].
    rewrite length_app.
    assert (Hcount : forall (f : Z -> list command) (l : list Z),
              (forall i, List.filter
                 (fun c => match c with Stroke => true | _ => false end) (f i)
                 = [Stroke]) ->
              length (List.filter
                 (fun c => match c with Stroke => true | _ => false end)
                 (flat_map f l)) = length l).
    { intros f l Hf. induction l as [|x l IH]; [reflexivity|].
      cbn [flat_map]. rewrite List.filter_app, length_app, Hf, IH.
      reflexivity. }
    rewrite !Hcount, length_seqZ by (intros; reflexivity). lia.
  - rewrite !Forall_app. split; [|split].
    + apply Forall_cons. split; [intros xy Hxy; discriminate Hxy|].
      apply Forall_cons. split; [intros xy Hxy; discriminate Hxy|].
      apply Forall_nil. exact I.
    + rewrite Forall_forall. intros c Hc.
      apply list_elem_of_In, in_flat_map in Hc as (i & Hi & Hc).
      apply list_elem_of_In, elem_of_seqZ in Hi.
      pose proof (grid_position (height - padding * 2) divisions i Hd
                    ltac:(lia) Hh) as Hpos.
      subst horizontal. cbn beta in Hc.
      set (y := (padding + (height - padding * 2) / inject_Z divisions
                           * inject_Z i)%Q) in *.
      intros xy Hxy. unfold in_plot.
      destruct Hc as [<-|[<-|[<-|[<-|[]]]]]; try discriminate Hxy;
        injection Hxy as <-; cbn [fst snd]; subst y; repeat split; lra.
    + rewrite Forall_forall. intros c Hc.
      apply list_elem_of_In, in_flat_map in Hc as (i & Hi & Hc).
      apply list_elem_of_In, elem_of_seqZ in Hi.
      pose proof (grid_position (width - padding * 2) divisions i Hd
                    ltac:(lia) Hw) as Hpos.
      subst vertical. cbn beta in Hc.
      set (x := (padding + (width - padding * 2) / inject_Z divisions
                           * inject_Z i)%Q) in *.
      intros xy Hxy. unfold in_plot.
      destruct Hc as [<-|[<-|[<-|[<-|[]]]]]; try discriminate Hxy;
        injection Hxy as <-; cbn [fst snd]; subst x; repeat split; lra.
Qed.

End Drawing.

(** ** The heatmap *)

Section HeatmapCells.

Implicit Types (data : list PointRef) (grid : list (list Z)) (rows cols : Z).

Lemma Qfloor_nonneg (x : Q) : (0 <= x)%Q -> 0 <= Qfloor x.
Proof.
  intros Hx. rewrite <- (Qfloor_Z 0). apply Qfloor_resp_le. exact Hx.
Qed.

Lemma Qfloor_below (x : Q) (n : Z) : (x < inject_Z n)%Q -> Qfloor x < n.
Proof.
  intros Hx. rewrite Zlt_Qlt. eapply Qle_lt_trans; [apply Qfloor_le | exact Hx].
Qed.

Lemma Qfloor_at_least (x : Q) (n : Z) : (inject_Z n <= x)%Q -> n <= Qfloor x.
Proof.
  intros Hx. rewrite <- (Qfloor_Z n). apply Qfloor_resp_le. exact Hx.
Qed.

Lemma Qrem_nonneg (x : Q) :
  (0 <= x)%Q -> (0 <= Heatmap.Qrem x 1000 < 1000)%Q.
Proof.
  intros Hx. unfold Heatmap.Qrem, Heatmap.Qtrunc.
  assert (Hq : (0 <= x / 1000)%Q) by (apply Qle_shift_div_l; lra).
  apply Qle_bool_iff in Hq as Hb. rewrite Hb.
  pose proof (Qfloor_le (x / 1000)) as Hlo.
  pose proof (Qlt_floor (x / 1000)) as Hhi.
  rewrite inject_Z_plus in Hhi. change (inject_Z 1) with 1%Q in Hhi.
  assert (Hx' : x == 1000 * (x / 1000)) by (field; lra).
  set (q := (x / 1000)%Q) in *. set (f := inject_Z (Qfloor q)) in *.
  split; lra.
Qed.

(** X28.  Which points the heatmap counts, for a grid of at least one row
    and one column: a point whose value is 100 or more, or negative, is left
    out (so the largest value the generators make, 100, never shows); a
    point with a value from 0 up to, not including, 100 and a timestamp that
    is not negative is counted, in a cell of the grid. *)
Theorem heatmap_cell_guard rows cols (point : DataPoint) :
  0 < rows -> 0 < cols ->
  ((100 <= value point)%Q \/ (value point < 0)%Q ->
   Heatmap.cell rows cols point = None) /\
  ((0 <= value point < 100)%Q -> (0 <= timestamp point)%Q ->
   exists row col,
     Heatmap.cell rows cols point = Some (row, col) /\
     0 <= row < rows /\ 0 <= col < cols).
Proof.
  intros Hrows Hcols. unfold Heatmap.cell.
  assert (Hr : (0 < inject_Z rows)%Q)
    by (change 0%Q with (inject_Z 0); rewrite <- Zlt_Qlt; lia).
  assert (Hc : (0 < inject_Z cols)%Q)
    by (change 0%Q with (inject_Z 0); rewrite <- Zlt_Qlt; lia).
  set (row := Qfloor (value point / 100 * inject_Z rows)).
  set (col := Qfloor (Heatmap.Qrem (timestamp point) 1000 / 1000
                      * inject_Z cols)).
  assert (Hv : value point == 100 * (value point / 100)) by (field; lra).
  split.
  - intros [Hbig|Hneg].
    + assert (rows <= row).
      { apply Qfloor_at_least. set (q := (value point / 100)%Q) in *. nra. }
      destruct (Z.ltb_spec row rows); [lia|].
      rewrite andb_false_r. reflexivity.
    + assert (row < 0).
      { apply Qfloor_below. change (inject_Z 0) with 0%Q.
        set (q := (value point / 100)%Q) in *. nra. }
      destruct (Z.leb_spec 0 row); [lia|]. reflexivity.
  - intros Hin Hts.
    pose proof (Qrem_nonneg (timestamp point) Hts) as Hrem.
    assert (Hm : Heatmap.Qrem (timestamp point) 1000
                 == 1000 * (Heatmap.Qrem (timestamp point) 1000 / 1000))
      by (field; lra).
    assert (Hrow : 0 <= row < rows).
    { split; [apply Qfloor_nonneg | apply Qfloor_below];
        set (q := (value point / 100)%Q) in *; nra. }
    assert (Hcol : 0 <= col < cols).
    { split; [apply Qfloor_nonneg | apply Qfloor_below];
        set (q := (Heatmap.Qrem (timestamp point) 1000 / 1000)%Q) in *; nra. }
    exists row, col.
    destruct (Z.leb_spec 0 row); [|lia].
    destruct (Z.ltb_spec row rows); [|lia].
    destruct (Z.leb_spec 0 col); [|lia].
    destruct (Z.ltb_spec col cols); [|lia].
    split; [reflexivity|]. split; assumption.
Qed.

Lemma grid_counts_nonneg rows cols data :
  Forall (Forall (fun n => 0 <= n)) (Heatmap.grid_counts rows cols data).
Proof.
  unfold Heatmap.grid_counts.
  generalize (replicate (Z.to_nat rows) (replicate (Z.to_nat cols) 0)),
    (Forall_replicate (Forall (fun n => 0 <= n)) (Z.to_nat rows)
       (replicate (Z.to_nat cols) 0)
       (Forall_replicate (fun n => 0 <= n) (Z.to_nat cols) 0 (Z.le_refl 0))).
  induction data as [|p rest IH]; intros grid Hgrid; [exact Hgrid|].
  cbn [foldl]. apply IH. unfold Heatmap.count_point.
  destruct (Heatmap.cell rows cols p) as [[row col]|]; [|exact Hgrid].
  apply Forall_alter; [exact Hgrid|]. intros line _ Hline.
  apply Forall_alter; [exact Hline|]. intros n _ Hn. lia.
Qed.

Lemma maxCount_above grid :
  1 <= Heatmap.maxCount grid /\
  forall n, In n (concat grid) -> n <= Heatmap.maxCount grid.
Proof.
  unfold Heatmap.maxCount. induction (concat grid) as [|x l [IH1 IH2]];
    cbn [foldr].
  - split; [lia | intros n []].
  - split; [lia|]. intros n [<-|Hn]; [lia|]. specialize (IH2 n Hn). lia.
Qed.

Lemma flat_map_length_const {A B : Type} (f : A -> list B) (l : list A)
    (k : nat) :
  (forall x, length (f x) = k) ->
  length (flat_map f l) = (k * length l)%nat.
Proof.
  intros Hf. induction l as [|x l IH]; [cbn; lia|].
  cbn [flat_map]. rewrite length_app, Hf, IH. cbn [length]. lia.
Qed.

(** X29.  On a canvas of at least 80 by 80 the heatmap of non-empty data
    fills one square per cell of the grid; every colour is a proper colour
    (red and blue between 0 and 255, summing to 255, green between 0 and
    100), and every square lies inside the plot area. *)
Theorem heatmap_render_fills data (width height : Q) :
  data <> [] -> (80 <= width)%Q -> (80 <= height)%Q ->
  exists fills,
    Heatmap.render data width height = Some fills /\
    Z.of_nat (length fills) = Heatmap.rows height * Heatmap.cols width /\
    Forall (fun f =>
              0 <= Heatmap.red f <= 255 /\ 0 <= Heatmap.green f <= 100 /\
              Heatmap.red f + Heatmap.blue f = 255 /\
              (Heatmap.padding <= Heatmap.left f)%Q /\
              (Heatmap.left f + Heatmap.size f
               <= width - Heatmap.padding)%Q /\
              (Heatmap.padding <= Heatmap.top f)%Q /\
              (Heatmap.top f + Heatmap.size f
               <= height - Heatmap.padding)%Q) fills.
Proof.
  intros Hne Hw Hh. unfold Heatmap.render.
  destruct data as [|d rest] eqn:Hdata; [contradiction|]. rewrite <- Hdata.
  set (cols := Heatmap.cols width). set (rows := Heatmap.rows height).
  assert (Hcols : (0 <= inject_Z cols)%Q /\
                  (inject_Z cols * 20 <= width - 80)%Q).
  { subst cols. unfold Heatmap.cols, Heatmap.padding, Heatmap.gridSize.
    pose proof (Qfloor_le ((width - 40 * 2) / 20)) as Hfl.
    assert (Hq : (width - 40 * 2) == 20 * ((width - 40 * 2) / 20))
      by (field; lra).
    assert (H0 : (0 <= (width - 40 * 2) / 20)%Q)
      by (apply Qle_shift_div_l; lra).
    split.
    - change 0%Q with (inject_Z 0). rewrite <- Zle_Qle.
      apply Qfloor_nonneg, H0.
    - set (q := ((width - 40 * 2) / 20)%Q) in *. lra. }
  assert (Hrows : (0 <= inject_Z rows)%Q /\
                  (inject_Z rows * 20 <= height - 80)%Q).
  { subst rows. unfold Heatmap.rows, Heatmap.padding, Heatmap.gridSize.
    pose proof (Qfloor_le ((height - 40 * 2) / 20)) as Hfl.
    assert (Hq : (height - 40 * 2) == 20 * ((height - 40 * 2) / 20))
      by (field; lra).
    assert (H0 : (0 <= (height - 40 * 2) / 20)%Q)
      by (apply Qle_shift_div_l; lra).
    split.
    - change 0%Q with (inject_Z 0). rewrite <- Zle_Qle.
      apply Qfloor_nonneg, H0.
    - set (q := ((height - 40 * 2) / 20)%Q) in *. lra. }
  destruct Hcols as [Hc0 Hc1]. destruct Hrows as [Hr0 Hr1].
  assert (Hc0' : 0 <= cols)
    by (rewrite Zle_Qle; exact Hc0).
  assert (Hr0' : 0 <= rows)
    by (rewrite Zle_Qle; exact Hr0).
  destruct (Z.ltb_spec rows 0) as [?|_]; [lia|].
  destruct (Z.ltb_spec cols 0) as [?|_]; [lia|].
  rewrite andb_false_r. cbn [orb].
  set (grid := Heatmap.grid_counts rows cols data).
  eexists. split; [reflexivity|]. split.
  - rewrite (flat_map_length_const _ _ (Z.to_nat cols)).
    + rewrite length_seqZ. lia.
    + intros r. rewrite length_map, length_seqZ. reflexivity.
  - rewrite Forall_forall. intros f Hf.
    apply list_elem_of_In, in_flat_map in Hf as (r & Hr & Hf).
    apply in_map_iff in Hf as (c & <- & Hc).
    apply list_elem_of_In, elem_of_seqZ in Hr.
    apply list_elem_of_In, elem_of_seqZ in Hc.
    unfold Heatmap.fill_cell.
    cbn [Heatmap.red Heatmap.green Heatmap.blue Heatmap.left Heatmap.top
         Heatmap.size].
    set (count := default 0 _).
    destruct (maxCount_above grid) as [Hmax1 Hmax].
    assert (Hcount : 0 <= count <= Heatmap.maxCount grid).
    { subst count.
      destruct (grid !! Z.to_nat r) as [line|] eqn:Hline; cbn; [|lia].
      destruct (line !! Z.to_nat c) as [n|] eqn:Hn; cbn; [|lia].
      split.
      - pose proof (grid_counts_nonneg rows cols data) as Hnn.
        fold grid in Hnn. rewrite Forall_forall in Hnn.
        specialize (Hnn line (list_elem_of_lookup_2 _ _ _ Hline)).
        rewrite Forall_forall in Hnn.
        apply Hnn. eapply list_elem_of_lookup_2, Hn.
      - apply Hmax, in_concat. exists line. split; apply list_elem_of_In.
        + eapply list_elem_of_lookup_2, Hline.
        + eapply list_elem_of_lookup_2, Hn. }
    set (m := Heatmap.maxCount grid) in *.
    assert (Hi : (0 <= inject_Z count / inject_Z m <= 1)%Q).
    { assert (Hm : (0 < inject_Z m)%Q)
        by (change 0%Q with (inject_Z 0); rewrite <- Zlt_Qlt; lia).
      assert (Hcq : (0 <= inject_Z count <= inject_Z m)%Q)
        by (change 0%Q with (inject_Z 0); rewrite <- !Zle_Qle; lia).
      split; [apply Qle_shift_div_l | apply Qle_shift_div_r]; lra. }
    set (intensity := (inject_Z count / inject_Z m)%Q) in *.
    assert (Hred : 0 <= Qfloor (intensity * 255) <= 255).
    { split; [apply Qfloor_nonneg; lra|].
      rewrite Zle_Qle. eapply Qle_trans; [apply Qfloor_le|].
      change (inject_Z 255) with 255%Q. lra. }
    assert (Hgreen : 0 <= Qfloor (intensity * 100) <= 100).
    { split; [apply Qfloor_nonneg; lra|].
      rewrite Zle_Qle. eapply Qle_trans; [apply Qfloor_le|].
      change (inject_Z 100) with 100%Q. lra. }
    assert (Hcq : (0 <= inject_Z c /\ inject_Z c + 1 <= inject_Z cols)%Q).
    { change 0%Q with (inject_Z 0). change 1%Q with (inject_Z 1).
      rewrite <- inject_Z_plus, <- !Zle_Qle. lia. }
    assert (Hrq : (0 <= inject_Z r /\ inject_Z r + 1 <= inject_Z rows)%Q).
    { change 0%Q with (inject_Z 0). change 1%Q with (inject_Z 1).
      rewrite <- inject_Z_plus, <- !Zle_Qle. lia. }
    unfold Heatmap.padding, Heatmap.gridSize.
    split; [exact Hred|]. split; [exact Hgreen|]. split; [lia|].
    repeat split; lra.
Qed.

(** The grid of a canvas less than 80 high has a negative number of rows,
    and its allocation throws. *)
Lemma render_low_canvas data (width height : Q) :
  data <> [] -> (height < 80)%Q ->
  Heatmap.render data width height = None.
Proof.
  intros Hne Hh. unfold Heatmap.render.
  destruct data as [|d rest]; [contradiction|].
  assert (Hrows : Heatmap.rows height < 0).
  { unfold Heatmap.rows, Heatmap.padding, Heatmap.gridSize.
    apply Qfloor_below. change (inject_Z 0) with 0%Q.
    apply Qlt_shift_div_r; lra. }
  destruct (Z.ltb_spec (Heatmap.rows height) 0) as [_|?]; [reflexivity|lia].
Qed.

(** X30.  On a canvas less than 80 high the effect of the heatmap of
    non-empty data fills the canvas with the background colour and then
    asks for an array of negative length: the effect throws, no cell is
    drawn and the end of the render is not reported. *)
Theorem heatmap_render_low_canvas data (width height : Q) :
  data <> [] -> (height < 80)%Q ->
  Heatmap.effect data width height
  = ([Heatmap.Background width height "#1a1a2e"], Heatmap.Thrown).
Proof.
  intros Hne Hh. unfold Heatmap.effect.
  rewrite (render_low_canvas data width height Hne Hh).
  destruct data as [|d rest]; [contradiction | reflexivity].
Qed.

End HeatmapCells.

(** ** The further properties at the sample data *)

Lemma calculateScales_bounds_sample :
  sample6 <> [] /\
  let s := calculateScales sample6 in
  Forall (fun p : PointRef =>
            (xMin s <= timestamp p <= xMax s)%Q /\
            (yMin s <= value p <= yMax s)%Q) sample6 /\
  In (xMin s) (map (fun p : PointRef => timestamp p) sample6) /\
  In (xMax s) (map (fun p : PointRef => timestamp p) sample6) /\
  In (yMin s) (map (fun p : PointRef => value p) sample6) /\
  In (yMax s) (map (fun p : PointRef => value p) sample6).
Proof.
  split; [discriminate|]. apply (calculateScales_bounds sample6). discriminate.
Defined.

Lemma dataToCanvas_in_plot_sample :
  whole 800 800 /\ whole 600 600 /\ whole 40 40 /\
  2 * 40 <= 800 /\ 2 * 40 <= 600 /\
  Forall (fun p : PointRef =>
            let px := dataToCanvas p (calculateScales sample6) 800 600 40 in
            in_plot 800 600 40 (Pixel.x px, Pixel.y px)) sample6.
Proof.
  assert (HW : whole 800 800) by (split; reflexivity).
  assert (HH : whole 600 600) by (split; reflexivity).
  assert (HP : whole 40 40) by (split; reflexivity).
  split; [exact HW|]. split; [exact HH|]. split; [exact HP|].
  split; [lia|]. split; [lia|].
  apply (dataToCanvas_in_plot sample6 800 600 40 800 600 40);
    [exact HW | exact HH | exact HP | lia | lia].
Defined.

Lemma dataToCanvas_monotone_sample :
  let p := target (sample_point 1 0 10) in
  let q := target (sample_point 2 50 20) in
  (0 <= 800 - 40 * 2)%Q /\ (0 <= 600 - 40 * 2)%Q /\
  let s := calculateScales sample6 in
  ((timestamp p <= timestamp q)%Q ->
   (Pixel.x (dataToCanvas p s 800 600 40)
    <= Pixel.x (dataToCanvas q s 800 600 40))%Q) /\
  ((value p <= value q)%Q ->
   (Pixel.y (dataToCanvas q s 800 600 40)
    <= Pixel.y (dataToCanvas p s 800 600 40))%Q).
Proof.
  intros p q. split; [lra|]. split; [lra|].
  apply (dataToCanvas_monotone sample6 p q 800 600 40); lra.
Defined.

Lemma downsampleSimple_length_sample :
  1 <= 3 /\ 3 < len sample6 /\
  exists sampled,
    downsampleSimple sample6 3 = Some sampled /\
    len sampled <= 3 + 1 /\
    head sampled = head sample6 /\
    strict_neq (last sampled) (last sample6) = false.
Proof.
  split; [lia|]. split; [reflexivity|].
  apply (downsampleSimple_length sample6 3); [lia | reflexivity].
Defined.

Lemma downsampleSimple_one_over_sample :
  1 <= 3 /\ 3 < len sample6 /\
  exists sampled,
    downsampleSimple sample6 3 = Some sampled /\ len sampled <= 3 + 1.
Proof.
  split; [lia|]. split; [reflexivity|].
  apply (downsampleSimple_one_over sample6 3); [lia | reflexivity].
Defined.

Lemma downsampleSimple_keeps_order_sample :
  0 <= 3 /\
  exists sampled,
    downsampleSimple sample6 3 = Some sampled /\
    sampled `sublist_of` sample6 /\
    head sampled = head sample6 /\
    strict_neq (last sampled) (last sample6) = false.
Proof.
  split; [lia|]. apply (downsampleSimple_keeps_order sample6 3). lia.
Defined.

Lemma downsampleSimple_negative_limit_sample :
  -1 < 0 /\ sample6 <> [] /\ downsampleSimple sample6 (-1) = None.
Proof.
  split; [lia|]. split; [discriminate|].
  apply (downsampleSimple_negative_limit sample6 (-1)); [lia | discriminate].
Defined.

Lemma downsampleLTTB_keeps_order_sample :
  3 <= 4 /\ 4 < len sample6 /\
  exists sampled,
    downsampleLTTB sample6 4 = Some sampled /\ sampled `sublist_of` sample6.
Proof.
  split; [lia|]. split; [reflexivity|].
  apply (downsampleLTTB_keeps_order sample6 4); [lia | reflexivity].
Defined.

Lemma downsampleLTTB_small_threshold_sample :
  1 <= 2 /\ 1 < len sample6 /\ sample6 <> [] /\
  exists first final,
    head sample6 = Some first /\ last sample6 = Some final /\
    downsampleLTTB sample6 1 = Some [first; final].
Proof.
  split; [lia|]. split; [reflexivity|]. split; [discriminate|].
  apply (downsampleLTTB_small_threshold sample6 1);
    [lia | reflexivity | discriminate].
Defined.

Lemma addDataPoint_batches_sample :
  let p5 := inl (sample_point 5 200 5) in
  let p6 := inl (sample_point 6 300 7) in
  0 <= 3 /\
  Stream.addDataPoint 3 p6 (Stream.addDataPoint 3 p5 sample_stream)
  = Stream.addDataPoint 3
      (inr (Stream.points_of p5 ++ Stream.points_of p6)) sample_stream.
Proof.
  intros p5 p6. split; [lia|].
  apply (addDataPoint_batches 3 p5 p6 sample_stream). lia.
Defined.

Lemma addDataPoint_after_replaceData_sample :
  let newPoint := inl (sample_point 7 400 9) in
  1 <= 3 /\ 3 <= len sample6 /\ Stream.points_of newPoint <> [] /\
  let st' := Stream.addDataPoint 3 newPoint
               (Stream.replaceData sample6 sample_stream) in
  len (Stream.data st') = 3 /\
  last (Stream.data st') = last (Stream.points_of newPoint).
Proof.
  intros newPoint. split; [lia|]. split; [vm_compute; discriminate|].
  split; [discriminate|].
  apply (addDataPoint_after_replaceData 3 sample6 newPoint sample_stream);
    [lia | vm_compute; discriminate | discriminate].
Defined.

Lemma generateBatch_shape_sample :
  (forall n, (0 <= sample_random n < 1)%Q) /\
  exists batch,
    generateBatch sample_sin sample_random 3 1000 = Some batch /\
    Z.of_nat (length batch) = Z.max 0 3 /\
    forall (k : nat) (p : DataPoint), batch !! k = Some p ->
      timestamp p == 1000 + 100 * inject_Z (Z.of_nat k + 1) /\
      (0 <= value p <= 100)%Q /\ In (category p) CATEGORIES.
Proof.
  assert (Hunit : forall n, (0 <= sample_random n < 1)%Q)
    by (intros n; unfold sample_random; lra).
  split; [exact Hunit|].
  apply (generateBatch_shape sample_sin sample_random Hunit 3 1000).
Defined.

Lemma generateInitialDataset_shape_sample :
  (forall n, (0 <= sample_random n < 1)%Q) /\
  exists points,
    generateInitialDataset sample_sin sample_random 1000 3 = Some points /\
    Z.of_nat (length points) = Z.max 0 3 /\
    forall (k : nat) (p : DataPoint), points !! k = Some p ->
      timestamp p == 1000 - inject_Z (3 - Z.of_nat k) * 100 /\
      (timestamp p < 1000)%Q /\
      (0 <= value p <= 100)%Q /\ In (category p) CATEGORIES.
Proof.
  assert (Hunit : forall n, (0 <= sample_random n < 1)%Q)
    by (intros n; unfold sample_random; lra).
  split; [exact Hunit|].
  apply (generateInitialDataset_shape sample_sin sample_random Hunit 1000 3).
Defined.

Lemma tick_keeps_ascending_sample :
  (0 <= (1 # 2) < 1)%Q /\ 0 <= 3 /\
  last sample4 = last (Stream.data sample_stream) /\
  StronglySorted Qlt
    (map (fun p : PointRef => timestamp p) (Stream.data sample_stream)) /\
  (forall p : PointRef, last (Stream.data sample_stream) = Some p ->
     exists t : Z, whole (timestamp p) t /\ t <> 0) /\
  exists st' newPoint,
    Tick.tick sample_sin 0 (1 # 2) 5000 7 3 sample4 sample_stream = Some st' /\
    StronglySorted Qlt
      (map (fun p : PointRef => timestamp p) (Stream.data st')) /\
    last (Stream.data st') = Some newPoint /\
    addr newPoint = 7%positive /\
    (0 <= value newPoint <= 100)%Q /\
    (forall p : PointRef, last (Stream.data sample_stream) = Some p ->
       timestamp newPoint = (timestamp p + 100)%Q) /\
    (Stream.data sample_stream = [] -> timestamp newPoint = (5000 + 100)%Q).
Proof.
  assert (Hr : (0 <= (1 # 2) < 1)%Q) by lra.
  assert (Hsorted : StronglySorted Qlt
            (map (fun p : PointRef => timestamp p) (Stream.data sample_stream))).
  { vm_compute. repeat constructor. }
  assert (Hlast : forall p : PointRef,
            last (Stream.data sample_stream) = Some p ->
            exists t : Z, whole (timestamp p) t /\ t <> 0).
  { intros p Hp. vm_compute in Hp. injection Hp as <-.
    exists 180. split; [split; reflexivity | discriminate]. }
  split; [exact Hr|]. split; [lia|]. split; [reflexivity|].
  split; [exact Hsorted|]. split; [exact Hlast|].
  apply (tick_keeps_ascending sample_sin 0 (1 # 2) 5000 7 3 sample4 sample_stream);
    [exact Hr | lia | reflexivity | exact Hsorted | exact Hlast].
Defined.

Lemma tick_twice_same_timestamp_sample :
  let p := sample_point 4 180 40 in
  (0 <= (1 # 2) < 1)%Q /\ 2 <= 3 /\
  last sample4 = Some p /\ ~ timestamp p == 0 /\
  exists st1 st2 front p1 p2,
    Tick.tick sample_sin 0 (1 # 2) 5000 7 3 sample4 sample_stream = Some st1 /\
    Tick.tick sample_sin 0 (1 # 2) 5100 8 3 sample4 st1 = Some st2 /\
    Stream.data st2 = front ++ [p1; p2] /\
    addr p1 = 7%positive /\ addr p2 = 8%positive /\
    timestamp p1 = (timestamp p + 100)%Q /\
    timestamp p2 = (timestamp p + 100)%Q /\
    ~ StronglySorted Qlt
        (map (fun q : PointRef => timestamp q) (Stream.data st2)).
Proof.
  intros p.
  assert (Hr : (0 <= (1 # 2) < 1)%Q) by lra.
  assert (Hnz : ~ timestamp p == 0) by discriminate.
  split; [exact Hr|]. split; [lia|]. split; [reflexivity|]. split; [exact Hnz|].
  apply (tick_twice_same_timestamp sample_sin 0 (1 # 2) 0 (1 # 2) 5000 5100
           7 8 3 sample4 sample_stream p);
    [exact Hr | exact Hr | lia | reflexivity | exact Hnz].
Defined.

Lemma calculateFPS_bounds_sample :
  0 <= 61 < 2 ^ 40 /\ (1000 <= 1016)%Q /\
  calculateFPS 61 0 = 0%Q /\
  calculateFPS 61 1000 = inject_Z 61 /\
  (exists n : Z, calculateFPS 61 1016 = inject_Z n /\ 0 <= n <= 61) /\
  (forall frameCount' : Z,
     61 <= frameCount' < 2 ^ 40 ->
     (calculateFPS 61 1016 <= calculateFPS frameCount' 1016)%Q).
Proof.
  split; [split; [lia | reflexivity]|]. split; [discriminate|].
  apply (calculateFPS_bounds 61 1016); [split; [lia | reflexivity] | discriminate].
Defined.

Lemma getPerformanceGrade_monotone_sample :
  (fps sample_slow <= fps sample_fast)%Q /\
  (renderTime sample_fast <= renderTime sample_slow)%Q /\
  grade_rank (grade (getPerformanceGrade sample_slow))
  <= grade_rank (grade (getPerformanceGrade sample_fast)).
Proof.
  split; [vm_compute; discriminate|]. split; [vm_compute; discriminate|].
  apply (getPerformanceGrade_monotone sample_slow sample_fast);
    vm_compute; discriminate.
Defined.

Lemma measureFrame_keeps_60_sample :
  (length (Monitor.renderTimes sample_monitor) <= 60)%nat /\
  let st' := Monitor.measureFrame 1200 10 5 100 sample_monitor in
  (length (Monitor.renderTimes st') <= 60)%nat /\
  last (Monitor.renderTimes st') = Some 5%Q /\
  Monitor.renderTimes st'
  = drop (length (Monitor.renderTimes sample_monitor) + 1 - 60)
      (Monitor.renderTimes sample_monitor ++ [5%Q]).
Proof.
  split; [cbn; lia|].
  apply (measureFrame_keeps_60 1200 10 5 100 sample_monitor). cbn. lia.
Defined.

Lemma aggregateByCategory_sums_sample :
  Forall (fun p : PointRef => plain_category (category p)) sample6 /\
  forall c,
    (of_category c sample6 = [] -> aggregateByCategory sample6 !! c = None) /\
    (of_category c sample6 <> [] ->
     exists s, aggregateByCategory sample6 !! c = Some s /\
       s == Qsum (map (fun p : PointRef => value p) (of_category c sample6))).
Proof.
  assert (Hplain : Forall (fun p : PointRef => plain_category (category p))
                     sample6).
  { repeat constructor; intros H; cbn in H;
      repeat (destruct H as [H|H]; [discriminate H|]); exact H. }
  split; [exact Hplain|].
  apply (aggregateByCategory_sums sample6 Hplain).
Defined.

Lemma windowKey_encloses_sample :
  let p := target (sample_point 3 150 30) in
  0 < 100 /\ whole 100 100 /\ whole (timestamp p) 150 /\
  windowKey 100 p == inject_Z (150 / 100 * 100) /\
  150 / 100 * 100 <= 150 < 150 / 100 * 100 + 100 /\
  (windowKey 100 p <= timestamp p < windowKey 100 p + 100)%Q.
Proof.
  intros p.
  assert (Hwindow : whole 100 100) by (split; reflexivity).
  assert (Ht : whole (timestamp p) 150) by (split; reflexivity).
  split; [lia|]. split; [exact Hwindow|]. split; [exact Ht|].
  apply (windowKey_encloses 100 100 p 150); [lia | exact Hwindow | exact Ht].
Defined.

Lemma aggregateByTimeWindow_length_sample :
  sample4 <> [] /\
  (1 <= length (aggregateByTimeWindow sample4 100) <= length sample4)%nat.
Proof.
  split; [discriminate|].
  apply (aggregateByTimeWindow_length sample4 100). discriminate.
Defined.

Lemma line_chart_path_in_plot_sample :
  0 <= 3 /\ whole 800 800 /\ whole 600 600 /\ whole 40 40 /\
  2 * 40 <= 800 /\ 2 * 40 <= 600 /\
  exists path,
    line_chart_path sample4 800 600 40 3 = Some path /\
    (length path <= length sample4)%nat /\
    (sample4 <> [] -> exists x y, path !! 0%nat = Some (MoveTo x y)) /\
    (forall i c, path !! Datatypes.S i = Some c -> exists x y, c = LineTo x y) /\
    Forall (fun c => exists xy, command_target c = Some xy /\
                                in_plot 800 600 40 xy) path.
Proof.
  assert (HW : whole 800 800) by (split; reflexivity).
  assert (HH : whole 600 600) by (split; reflexivity).
  assert (HP : whole 40 40) by (split; reflexivity).
  split; [lia|]. split; [exact HW|]. split; [exact HH|]. split; [exact HP|].
  split; [lia|]. split; [lia|].
  apply (line_chart_path_in_plot sample4 800 600 40 800 600 40 3);
    [lia | exact HW | exact HH | exact HP | lia | lia].
Defined.

Lemma drawGrid_in_plot_sample :
  1 <= 5 /\ whole 800 800 /\ whole 600 600 /\ whole 40 40 /\
  2 * 40 <= 800 /\ 2 * 40 <= 600 /\
  (800 - 2 * 40) mod 5 = 0 /\ (600 - 2 * 40) mod 5 = 0 /\
  let calls := drawGrid 800 600 40 5 "#2a2a3e" in
  Z.of_nat (length calls) = 2 + 8 * (5 + 1) /\
  Z.of_nat (length (List.filter
                      (fun c => match c with Stroke => true | _ => false end)
                      calls)) = 2 * (5 + 1) /\
  Forall (fun c => forall xy, command_target c = Some xy ->
                              in_plot 800 600 40 xy) calls.
Proof.
  assert (HW : whole 800 800) by (split; reflexivity).
  assert (HH : whole 600 600) by (split; reflexivity).
  assert (HP : whole 40 40) by (split; reflexivity).
  split; [lia|]. split; [exact HW|]. split; [exact HH|]. split; [exact HP|].
  split; [lia|]. split; [lia|]. split; [reflexivity|]. split; [reflexivity|].
  apply (drawGrid_in_plot 800 600 40 800 600 40 5 "#2a2a3e");
    [lia | exact HW | exact HH | exact HP | lia | lia | reflexivity | reflexivity].
Defined.

Lemma heatmap_cell_guard_sample :
  let point := target (sample_point 1 50 100) in
  0 < 2 /\ 0 < 2 /\
  ((100 <= value point)%Q \/ (value point < 0)%Q ->
   Heatmap.cell 2 2 point = None) /\
  ((0 <= value point < 100)%Q -> (0 <= timestamp point)%Q ->
   exists row col,
     Heatmap.cell 2 2 point = Some (row, col) /\
     0 <= row < 2 /\ 0 <= col < 2).
Proof.
  intros point. split; [lia|]. split; [lia|].
  apply (heatmap_cell_guard 2 2 point); lia.
Defined.

Lemma heatmap_render_fills_sample :
  sample4 <> [] /\ (80 <= 120)%Q /\ (80 <= 120)%Q /\
  exists fills,
    Heatmap.render sample4 120 120 = Some fills /\
    Z.of_nat (length fills) = Heatmap.rows 120 * Heatmap.cols 120 /\
    Forall (fun f =>
              0 <= Heatmap.red f <= 255 /\ 0 <= Heatmap.green f <= 100 /\
              Heatmap.red f + Heatmap.blue f = 255 /\
              (Heatmap.padding <= Heatmap.left f)%Q /\
              (Heatmap.left f + Heatmap.size f <= 120 - Heatmap.padding)%Q /\
              (Heatmap.padding <= Heatmap.top f)%Q /\
              (Heatmap.top f + Heatmap.size f <= 120 - Heatmap.padding)%Q)
           fills.
Proof.
  split; [discriminate|]. split; [lra|]. split; [lra|].
  apply (heatmap_render_fills sample4 120 120); [discriminate | lra | lra].
Defined.

Lemma heatmap_render_low_canvas_sample :
  sample4 <> [] /\ (60 < 80)%Q /\
  Heatmap.effect sample4 120 60
  = ([Heatmap.Background 120 60 "#1a1a2e"], Heatmap.Thrown).
Proof.
  split; [discriminate|]. split; [reflexivity|].
  apply (heatmap_render_low_canvas sample4 120 60); [discriminate | reflexivity].
Defined.
